(** * text_sample.py: sampling loop, token decoding, output writer and
      sanity check

    A shallow embedding of [src/train_infer/text_sample.py] and the
    properties of it that the specification states.

    Conventions of the embedding.
    - A Python [str] is a [string]; a character is a code point below 256.
    - A Python [int] is a [Z]; [len(...)] is a [nat] injected with [Z.of_nat].
    - A Python [float] is the rational it denotes ([Q]).  The only float
      arithmetic of the file is [len(common) / len(union)] compared with
      [0.9]: the correctly rounded quotient of two integers below 2^50 is
      above the double nearest to 0.9 exactly when the rational quotient is
      above 9/10, so the comparison is modelled on rationals.
    - A [set] of strings is a [gset string]; a [dict] is a [gmap].
    - The file system is a finite map from path to text together with the
      log of [open] calls; exceptions are values of [exn] carried by
      [result]. *)

From Stdlib Require Import Ascii String QArith DecimalString.
From stdpp Require Import gmap strings list sets.

Close Scope Q_scope.
Open Scope string_scope.

(** ** Python built-ins used by the program *)

Module Py.

(** The outcome of a statement that may raise. *)
Inductive result (E A : Type) : Type :=
| Ok (a : A)
| Raise (e : E).
Arguments Ok {E A} a.
Arguments Raise {E A} e.

Definition bind {E A B} (m : result E A) (k : A → result E B) : result E B :=
  match m with
  | Ok a => k a
  | Raise e => Raise e
  end.

Definition LF : ascii := "010"%char.
Definition CR : ascii := "013"%char.
Definition newline : string := String LF "".

(** [str.isspace] on one character (code points below 256). *)
Definition isspace (c : ascii) : bool :=
  let n := nat_of_ascii c in
  ((9 <=? n)%nat && (n <=? 13)%nat) || ((28 <=? n)%nat && (n <=? 32)%nat)
  || (n =? 133)%nat || (n =? 160)%nat.

Definition is_empty (s : string) : bool :=
  match s with
  | EmptyString => true
  | String _ _ => false
  end.

(** [s.lstrip()], [s.rstrip()], [s.strip()]. *)
Fixpoint lstrip (s : string) : string :=
  match s with
  | EmptyString => EmptyString
  | String c s' => if isspace c then lstrip s' else s
  end.

Fixpoint rstrip (s : string) : string :=
  match s with
  | EmptyString => EmptyString
  | String c s' =>
      let r := rstrip s' in
      if is_empty r && isspace c then EmptyString else String c r
  end.

Definition strip (s : string) : string := rstrip (lstrip s).

(** [s.split()]: the maximal runs of non-space characters, in order.
    [tok] is the run being read. *)
Fixpoint split_from (tok s : string) : list string :=
  match s with
  | EmptyString => if is_empty tok then [] else [tok]
  | String c s' =>
      if isspace c
      then (if is_empty tok then split_from "" s' else tok :: split_from "" s')
      else split_from (tok +:+ String c "") s'
  end.

Definition split (s : string) : list string := split_from "" s.

(** [sep.join(l)]. *)
Definition join (sep : string) (l : list string) : string := String.concat sep l.

(** Text mode with universal newlines: CR LF and a lone CR read as LF. *)
Fixpoint universal_newlines (s : string) : string :=
  match s with
  | EmptyString => EmptyString
  | String c s' =>
      if Ascii.eqb c CR then
        match s' with
        | String d s'' =>
            if Ascii.eqb d LF then String LF (universal_newlines s'')
            else String LF (universal_newlines s')
        | EmptyString => String LF EmptyString
        end
      else String c (universal_newlines s')
  end.

(** The lines of a text, each with its terminating LF; a last line
    without LF is kept as it is. *)
Fixpoint lines (s : string) : list string :=
  match s with
  | EmptyString => []
  | String c s' =>
      if Ascii.eqb c LF then newline :: lines s'
      else match lines s' with
           | [] => [String c ""]
           | l :: ls => String c l :: ls
           end
  end.

(** [f.readlines()] on a file opened with mode ["r"]. *)
Definition readlines (content : string) : list string :=
  lines (universal_newlines content).

(** [a / b] on two lengths: a float, or ZeroDivisionError ([None]). *)
Definition truediv (a b : nat) : option Q :=
  if (b =? 0)%nat then None else Some (Qred (Z.of_nat a # Pos.of_nat b)).

(** [x > y] on floats. *)
Definition gt (x y : Q) : bool := if Qlt_le_dec y x then true else false.

(** [l[:k]] for an integer [k] of either sign. *)
Definition slice_to {A} (k : Z) (l : list A) : list A :=
  if (k <? 0)%Z then take (length l - Z.to_nat (- k)) l
  else take (Z.to_nat k) l.

(** [f"{n}"] for an integer. *)
Definition str_int (n : Z) : string := NilZero.string_of_int (Z.to_int n).

End Py.


(** ** [os.path] (posixpath) *)

Module PosixPath.

Definition sep : ascii := "/"%char.

(** [s.rfind(c)]: the highest index of [c] in [s], or -1. *)
Fixpoint rfind (c : ascii) (s : string) : Z :=
  match s with
  | EmptyString => (-1)%Z
  | String a s' =>
      let r := rfind c s' in
      if (0 <=? r)%Z then (r + 1)%Z
      else if Ascii.eqb a c then 0%Z else (-1)%Z
  end.

(** [s[:i]] and [s[i:]] for [0 <= i]. *)
Fixpoint prefix (i : nat) (s : string) : string :=
  match i, s with
  | S i', String a s' => String a (prefix i' s')
  | _, _ => EmptyString
  end.

Fixpoint suffix (i : nat) (s : string) : string :=
  match i, s with
  | S i', String _ s' => suffix i' s'
  | _, _ => s
  end.

(** [head != sep * len(head)] is [negb (all_sep head)]. *)
Fixpoint all_sep (s : string) : bool :=
  match s with
  | EmptyString => true
  | String a s' => Ascii.eqb a sep && all_sep s'
  end.

(** [s.rstrip(sep)]. *)
Fixpoint rstrip_sep (s : string) : string :=
  match s with
  | EmptyString => EmptyString
  | String a s' =>
      let r := rstrip_sep s' in
      if Py.is_empty r && Ascii.eqb a sep then EmptyString else String a r
  end.

(** [os.path.split(p)]. *)
Definition split (p : string) : string * string :=
  let i := Z.to_nat (rfind sep p + 1) in
  let head := prefix i p in
  let tail := suffix i p in
  let head :=
    if negb (Py.is_empty head) && negb (all_sep head)
    then rstrip_sep head else head in
  (head, tail).

(** [os.path.basename(p)]. *)
Definition basename (p : string) : string :=
  let i := Z.to_nat (rfind sep p + 1) in
  suffix i p.

Definition startswith_sep (s : string) : bool :=
  match s with
  | String a _ => Ascii.eqb a sep
  | EmptyString => false
  end.

Fixpoint endswith_sep (s : string) : bool :=
  match s with
  | EmptyString => false
  | String a EmptyString => Ascii.eqb a sep
  | String _ s' => endswith_sep s'
  end.

(** [os.path.join(a, b)]. *)
Definition join (a b : string) : string :=
  if startswith_sep b then b
  else if Py.is_empty a || endswith_sep a then a +:+ b
  else a +:+ String sep b.

End PosixPath.

(** ** [json.dumps] on a list holding one string *)

Module Json.

Definition quote : ascii := "034"%char.
Definition backslash : ascii := "092"%char.

Definition hex_digit (n : nat) : ascii :=
  match String.get n "0123456789abcdef" with
  | Some c => c
  | None => "0"%char
  end.

(** The replacement of one character by [encode_basestring_ascii]: the
    entries of [ESCAPE_DCT], then [\uXXXX] for what is left outside
    [' '..'~']. *)
Definition escape_char (c : ascii) : string :=
  let n := nat_of_ascii c in
  if Ascii.eqb c backslash then String backslash (String backslash "")
  else if Ascii.eqb c quote then String backslash (String quote "")
  else if (n =? 8)%nat then String backslash "b"
  else if (n =? 12)%nat then String backslash "f"
  else if (n =? 10)%nat then String backslash "n"
  else if (n =? 13)%nat then String backslash "r"
  else if (n =? 9)%nat then String backslash "t"
  else if (32 <=? n)%nat && (n <=? 126)%nat then String c ""
  else String backslash
         ("u00" +:+ String (hex_digit (n / 16)) (String (hex_digit (n mod 16)) "")).

Fixpoint escape (s : string) : string :=
  match s with
  | EmptyString => EmptyString
  | String c s' => escape_char c +:+ escape s'
  end.

Definition encode_basestring_ascii (s : string) : string :=
  String quote (escape s +:+ String quote "").

(** [json.dumps([s])]. *)
Definition dumps_singleton (s : string) : string :=
  "[" +:+ encode_basestring_ascii s +:+ "]".

(** A reader for the JSON texts that are an array of one string, used to
    say what a written line denotes. *)
Definition hex_value (c : ascii) : option nat :=
  let n := nat_of_ascii c in
  if (48 <=? n)%nat && (n <=? 57)%nat then Some (n - 48)
  else if (97 <=? n)%nat && (n <=? 102)%nat then Some (n - 87)
  else if (65 <=? n)%nat && (n <=? 70)%nat then Some (n - 55)
  else None.

Definition unescape (e : ascii) : option ascii :=
  if Ascii.eqb e quote then Some quote
  else if Ascii.eqb e backslash then Some backslash
  else if Ascii.eqb e "/" then Some "/"%char
  else if Ascii.eqb e "b" then Some "008"%char
  else if Ascii.eqb e "f" then Some "012"%char
  else if Ascii.eqb e "n" then Some "010"%char
  else if Ascii.eqb e "r" then Some "013"%char
  else if Ascii.eqb e "t" then Some "009"%char
  else None.

(** The characters of a JSON string after its opening quote, and what
    follows the closing quote. *)
Fixpoint read_chars (s : string) : option (string * string) :=
  match s with
  | EmptyString => None
  | String c s' =>
      if Ascii.eqb c quote then Some (EmptyString, s')
      else if Ascii.eqb c backslash then
        match s' with
        | String "u" (String h1 (String h2 (String h3 (String h4 r)))) =>
            match hex_value h1, hex_value h2, hex_value h3, hex_value h4 with
            | Some 0, Some 0, Some a, Some b =>
                match read_chars r with
                | Some (t, rest) => Some (String (ascii_of_nat (16 * a + b)) t, rest)
                | None => None
                end
            | _, _, _, _ => None
            end
        | String e s'' =>
            match unescape e, read_chars s'' with
            | Some d, Some (t, rest) => Some (String d t, rest)
            | _, _ => None
            end
        | EmptyString => None
        end
      else if (nat_of_ascii c <? 32)%nat then None
      else
        match read_chars s' with
        | Some (t, rest) => Some (String c t, rest)
        | None => None
        end
  end.

Definition loads_singleton (text : string) : option (list string) :=
  match text with
  | String "[" (String c s) =>
      if Ascii.eqb c quote then
        match read_chars s with
        | Some (t, "]") => Some [t]
        | _ => None
        end
      else None
  | _ => None
  end.

End Json.


(** ** The program *)

Module text_sample.
Import Py.

(** The fields of [args] that the modelled code reads. *)
Record Args := {
  model_name_or_path : string;
  out_dir : string;
  top_p : Q;
  diffusion_steps : Z;
  batch_size : Z;
  num_samples : Z;
  mbr_sample : Z
}.

(** The values interpolated into the message of the failed assertion,
    in the order of the f-string:
    [line {i} is not similar enough: {jaccard} {sanity_check_line_toks}
     {generated_sentence_toks} | {common}]. *)
Record Mismatch := {
  line_no : nat;
  jaccard : Q;
  sanity_check_line_toks : gset string;
  generated_sentence_toks : gset string;
  common : gset string
}.

Inductive exn :=
| AssertionError (msg : Mismatch)
| IndexError
| ZeroDivisionError
| KeyError (key : Z)
| ValueError
| FileNotFoundError (path : string).

(** *** The sanity check of [write_outputs] (lines 147-157) *)

Definition sanity_check_path : string :=
  "generation_outputs_emb128/two_steps_sanity_check.txt".

Definition toks (s : string) : gset string := list_to_set (split s).

(** One iteration of the comparing loop. *)
Definition compare_line (i : nat) (sanity_check_line : string)
    (sentences : list string) : result exn unit :=
  let sanity_check_line_toks := toks (strip sanity_check_line) in
  match sentences !! i with
  | None => Raise IndexError
  | Some sentence =>
      let generated_sentence_toks := toks sentence in
      let common := sanity_check_line_toks ∩ generated_sentence_toks in
      match truediv (size common)
              (size (sanity_check_line_toks ∪ generated_sentence_toks)) with
      | None => Raise ZeroDivisionError
      | Some jaccard =>
          if gt jaccard (9 # 10)%Q then Ok tt
          else Raise (AssertionError
                        {| line_no := i;
                           jaccard := jaccard;
                           sanity_check_line_toks := sanity_check_line_toks;
                           generated_sentence_toks := generated_sentence_toks;
                           common := common |})
      end
  end.

(** [for i, sanity_check_line in enumerate(sanity_check_lines)], from
    index [i] on. *)
Fixpoint compare_from (i : nat) (sanity_check_lines sentences : list string)
    : result exn unit :=
  match sanity_check_lines with
  | [] => Ok tt
  | sanity_check_line :: rest =>
      bind (compare_line i sanity_check_line sentences)
           (λ _, compare_from (S i) rest sentences)
  end.

Definition sanity_check (sanity_check_lines sentences : list string)
    : result exn unit :=
  compare_from 0 sanity_check_lines sentences.

(** *** Files *)

Inductive event :=
| OpenWrite (path : string)
| OpenRead (path : string).

Record world := {
  files : gmap string string;
  opened : list event
}.

(** [open(path, "w")]: the file is created or emptied. *)
Definition open_w (path : string) (w : world) : world :=
  {| files := <[path := ""]> (files w);
     opened := opened w ++ [OpenWrite path] |}.

(** [f.write(data)] on a file opened for writing. *)
Definition write (path data : string) (w : world) : world :=
  {| files := alter (λ old, old +:+ data) path (files w);
     opened := opened w |}.

(** [open(path, "r")] followed by reading the whole text. *)
Definition open_r (path : string) (w : world) : world * result exn string :=
  let w' := {| files := files w; opened := opened w ++ [OpenRead path] |} in
  match files w !! path with
  | Some content => (w', Ok content)
  | None => (w', Raise (FileNotFoundError path))
  end.

Definition reads (w : world) : list string :=
  omap (λ e, match e with OpenRead p => Some p | OpenWrite _ => None end)
       (opened w).

(** *** [write_outputs] *)

Section write_outputs.
(** [f"{x}"] for a float is left abstract. *)
Variable repr_float : Q → string.

Definition model_base_name (args : Args) : string :=
  PosixPath.basename (PosixPath.split (model_name_or_path args)).1
  +:+ "." +:+ (PosixPath.split (model_name_or_path args)).2.

Definition output_file_name (args : Args) : string :=
  model_base_name args +:+ ".samples_" +:+ repr_float (top_p args)
  +:+ ".steps=" +:+ str_int (diffusion_steps args).

Definition output_file_basepath (args : Args) : string :=
  PosixPath.join (out_dir args) (output_file_name args).

(** The body of the writing loop for one sentence. *)
Definition write_sentence (base : string) (w : world)
    (generated_sentence : string) : world :=
  write (base +:+ ".json")
        (Json.dumps_singleton generated_sentence +:+ newline)
        (write (base +:+ ".txt") (generated_sentence +:+ newline) w).

Definition write_outputs (args : Args) (sentences : list string)
    (w : world) : world * result exn unit :=
  let output_file_basepath := output_file_basepath args in
  let w := open_w (output_file_basepath +:+ ".txt") w in
  let w := open_w (output_file_basepath +:+ ".json") w in
  let w := foldl (write_sentence output_file_basepath) w sentences in
  match open_r sanity_check_path w with
  | (w, Raise e) => (w, Raise e)
  | (w, Ok content) => (w, sanity_check (readlines content) sentences)
  end.
End write_outputs.

(** *** Decoding (lines 108-112) *)

(** [tokenizer[x]] on a dictionary. *)
Definition getitem (tokenizer : gmap Z string) (x : Z) : result exn string :=
  match tokenizer !! x with
  | Some tok => Ok tok
  | None => Raise (KeyError x)
  end.

(** A list comprehension or loop whose body may raise. *)
Fixpoint for_each {A B} (f : A → result exn B) (l : list A)
    : result exn (list B) :=
  match l with
  | [] => Ok []
  | x :: l' => bind (f x) (λ y, bind (for_each f l') (λ ys, Ok (y :: ys)))
  end.

(** [" ".join([tokenizer[x[0].item()] for x in seq])]; [seq] lists the
    top-1 index of each position. *)
Definition decode_sentence (tokenizer : gmap Z string) (seq : list Z)
    : result exn string :=
  bind (for_each (getitem tokenizer) seq) (λ words, Ok (join " " words)).

Definition decode_sentences (tokenizer : gmap Z string)
    (indices : list (list Z)) : result exn (list string) :=
  for_each (decode_sentence tokenizer) indices.

(** *** The sampling loop (lines 71-99) *)

Section sampling.
(** One sample: a [sequence_len] by [in_channel] array. *)
Context {row : Type}.
(** [dist.get_world_size()]. *)
Variable world_size : nat.
(** The batch that the worker of rank [rank] draws in round [round]. *)
Variable sample_fn : nat → nat → list row.

(** [dist.all_gather]: slot [rank] of the list receives the batch of
    the worker of that rank. *)
Definition all_gather (round : nat) : list (list row) :=
  sample_fn round <$> seq 0 world_size.

(** The shape that [sample_fn] is called with: every batch has
    [batch_size] rows. *)
Definition batches_shaped (args : Args) : Prop :=
  ∀ round rank, Z.of_nat (length (sample_fn round rank)) = batch_size args.

(** [rounds] counts the completed iterations; the program does not
    store it. *)
Record loop_state := {
  rounds : nat;
  all_samples : list (list row)
}.

Definition loop_init : loop_state := {| rounds := 0; all_samples := [] |}.

Definition loop_guard (args : Args) (st : loop_state) : bool :=
  (Z.of_nat (length (all_samples st)) * batch_size args <? num_samples args)%Z.

Definition loop_body (st : loop_state) : loop_state :=
  {| rounds := S (rounds st);
     all_samples := all_samples st ++ all_gather (rounds st) |}.

Fixpoint sampling_loop (fuel : nat) (args : Args) (st : loop_state)
    : option loop_state :=
  if loop_guard args st then
    match fuel with
    | 0 => None
    | S fuel' => sampling_loop fuel' args (loop_body st)
    end
  else Some st.

(** The states in which the loop test is evaluated. *)
Inductive loop_reaches (args : Args) : loop_state → Prop :=
| reaches_init : loop_reaches args loop_init
| reaches_body st :
    loop_reaches args st → loop_guard args st = true →
    loop_reaches args (loop_body st).

(** [np.concatenate(arrays, axis=0)]. *)
Definition np_concatenate (arrays : list (list row)) : result exn (list row) :=
  match arrays with
  | [] => Raise ValueError
  | _ => Ok (concat arrays)
  end.

(** Lines 98-99: what is handed to [model.get_logits]. *)
Definition truncate (args : Args) (st : loop_state) : result exn (list row) :=
  bind (np_concatenate (all_samples st))
       (λ arr, Ok (slice_to (num_samples args * mbr_sample args) arr)).

Definition collect (fuel : nat) (args : Args) : option (result exn (list row)) :=
  truncate args <$> sampling_loop fuel args loop_init.
End sampling.

End text_sample.

Import Py text_sample.

(** ** Notions used to state the properties *)

(** The Jaccard similarity that the sanity check computes for a reference
    line and a generated sentence; [None] when both token sets are empty. *)
Definition similarity (sanity_check_line sentence : string) : option Q :=
  truediv (size (toks (strip sanity_check_line) ∩ toks sentence))
          (size (toks (strip sanity_check_line) ∪ toks sentence)).

(** The values that the failed assertion reports for line [i]. *)
Definition mismatch (i : nat) (sanity_check_line sentence : string) (q : Q)
    : Mismatch :=
  {| line_no := i;
     jaccard := q;
     sanity_check_line_toks := toks (strip sanity_check_line);
     generated_sentence_toks := toks sentence;
     common := toks (strip sanity_check_line) ∩ toks sentence |}.

Definition symmetric_difference (A B : gset string) : gset string :=
  (A ∖ B) ∪ (B ∖ A).

(** The texts that the writing loop leaves in the two files. *)
Definition text_of (sentences : list string) : string :=
  foldr (λ s acc, s +:+ newline +:+ acc) "" sentences.

Definition json_of (sentences : list string) : string :=
  foldr (λ s acc, Json.dumps_singleton s +:+ newline +:+ acc) "" sentences.

Fixpoint has_char (c : ascii) (s : string) : bool :=
  match s with
  | EmptyString => false
  | String a s' => Ascii.eqb a c || has_char c s'
  end.

Definition no_linebreak (s : string) : Prop :=
  has_char LF s = false ∧ has_char CR s = false.

Definition empty_world : world := {| files := ∅; opened := [] |}.

(** The state of the files when the writing loop of [write_outputs] has
    ended and the reference file is about to be opened. *)
Definition written (repr_float : Q → string) (args : Args)
    (sentences : list string) (w : world) : world :=
  foldl (write_sentence (output_file_basepath repr_float args))
        (open_w (output_file_basepath repr_float args +:+ ".json")
                (open_w (output_file_basepath repr_float args +:+ ".txt") w))
        sentences.

(** ** Loading the configuration (lines 40-47 and 120-125) *)

Module configuration.

(** The values that [json.load] builds and that a namespace holds. *)
#[warnings="-register-all"]
Inductive pyval :=
| PNone
| PBool (b : bool)
| PInt (n : Z)
| PFloat (q : Q)
| PStr (s : string)
| PList (l : list pyval)
| PDict (d : gmap string pyval).

Inductive load_exn :=
| AttributeError (name : string)
| TypeError
| FileNotFoundError (path : string)
| JSONDecodeError.

(** [open(path, "rb")] followed by reading the whole file. *)
Definition open_rb (path : string) (w : world) : world * result load_exn string :=
  let w' := {| files := files w; opened := opened w ++ [OpenRead path] |} in
  match files w !! path with
  | Some content => (w', Ok content)
  | None => (w', Raise (FileNotFoundError path))
  end.

(** [args.name]. *)
Definition getattr (args : gmap string pyval) (name : string)
    : result load_exn pyval :=
  match args !! name with
  | Some v => Ok v
  | None => Raise (AttributeError name)
  end.

(** [d[key] = v] on the value that [json.load] returned. *)
Definition setitem (d : pyval) (key : string) (v : pyval) : result load_exn pyval :=
  match d with
  | PDict m => Ok (PDict (<[key := v]> m))
  | _ => Raise TypeError
  end.

Section load.
(** [json.loads] is the parser of the library; [None] is a text that it
    rejects. *)
Variable json_loads : string → option pyval.

Definition read_training_args (config_path : string) (w : world)
    : world * result load_exn pyval :=
  match open_rb config_path w with
  | (w, Raise e) => (w, Raise e)
  | (w, Ok content) =>
      match json_loads content with
      | Some v => (w, Ok v)
      | None => (w, Raise JSONDecodeError)
      end
  end.

(** Lines 40-47 of [main]; [args] is [args.__dict__]. *)
Definition load_configuration (args : gmap string pyval) (w : world)
    : world * result load_exn (gmap string pyval) :=
  match getattr args "model_name_or_path" with
  | Raise e => (w, Raise e)
  | Ok (PStr model_name_or_path) =>
      let checkpoint_path := (PosixPath.split model_name_or_path).1 in
      let args := <["checkpoint_path" := PStr checkpoint_path]> args in
      let config_path := PosixPath.join checkpoint_path "training_args.json" in
      match read_training_args config_path w with
      | (w, Raise e) => (w, Raise e)
      | (w, Ok training_args) =>
          (w,
           bind (getattr args "batch_size") (λ batch_size,
           bind (setitem training_args "batch_size" batch_size) (λ training_args,
           bind (getattr args "diffusion_steps") (λ diffusion_steps,
           bind (setitem training_args "diffusion_steps" diffusion_steps)
             (λ training_args,
           match training_args with
           | PDict training_args =>
               Ok (<["sigma_small" := PBool true]> (training_args ∪ args))
           | _ => Raise TypeError
           end)))))
      end
  | Ok _ => (w, Raise TypeError)
  end.
End load.

End configuration.

(** A word: not empty and without white space. *)
Fixpoint has_space (s : string) : bool :=
  match s with
  | EmptyString => false
  | String c s' => isspace c || has_space s'
  end.

Definition is_word (s : string) : Prop := s ≠ "" ∧ has_space s = false.

(** The characters [' '] to ['~']. *)
Fixpoint all_printable (s : string) : bool :=
  match s with
  | EmptyString => true
  | String c s' =>
      (32 <=? nat_of_ascii c)%nat && (nat_of_ascii c <=? 126)%nat
      && all_printable s'
  end.

(** ** Worked examples *)

(** [repr] of the float 0.9, the only top-p value of the examples. *)
Definition repr_nine_tenths (q : Q) : string := "0.9".

Definition sit_args : Args :=
  {| model_name_or_path := "ckpts/emb128/model_5000.pt";
     out_dir := "out";
     top_p := (9 # 10)%Q;
     diffusion_steps := 2000;
     batch_size := 1;
     num_samples := 1;
     mbr_sample := 1 |}.

Definition other_args : Args :=
  {| model_name_or_path := "/srv/run7/ema.pt";
     out_dir := "/tmp/samples/";
     top_p := (9 # 10)%Q;
     diffusion_steps := 50;
     batch_size := 4;
     num_samples := 8;
     mbr_sample := 1 |}.

(** One sample asked for, two candidates per sample. *)
Definition pair_args : Args :=
  {| model_name_or_path := "ckpts/emb128/model_5000.pt";
     out_dir := "out";
     top_p := (9 # 10)%Q;
     diffusion_steps := 2000;
     batch_size := 1;
     num_samples := 1;
     mbr_sample := 2 |}.

Definition triple_args : Args :=
  {| model_name_or_path := "ckpts/emb128/model_5000.pt";
     out_dir := "out";
     top_p := (9 # 10)%Q;
     diffusion_steps := 2000;
     batch_size := 3;
     num_samples := 7;
     mbr_sample := 1 |}.

(** Batches of three rows that record who drew them. *)
Definition numbered_batch (round rank : nat) : list nat :=
  [round; rank; round + rank].

Definition small_vocab : gmap Z string := {[ 0%Z := "the"; 1%Z := "cat" ]}.

(** A store that holds the reference file with the one line [the cat sat]. *)
Definition reference_world : world :=
  {| files := {[ sanity_check_path := "the cat sat" +:+ newline ]};
     opened := [] |}.

Definition two_line_sentence : string := "a" +:+ newline +:+ "b".

(** ** Further notions and examples *)

(** Where line 41 looks for the training arguments. *)
Definition config_path_of (model_name_or_path : string) : string :=
  PosixPath.join (PosixPath.split model_name_or_path).1 "training_args.json".

(** Lines 108-117 of [main]: decoding, then [write_outputs]. *)
Definition decode_and_write (repr_float : Q → string)
    (tokenizer : gmap Z string) (args : Args) (indices : list (list Z))
    (w : world) : world * result exn unit :=
  match decode_sentences tokenizer indices with
  | Raise e => (w, Raise e)
  | Ok decoded_sentences => write_outputs repr_float args decoded_sentences w
  end.

(** [args] with another model path. *)
Definition with_model (args : Args) (p : string) : Args :=
  {| model_name_or_path := p;
     out_dir := out_dir args;
     top_p := top_p args;
     diffusion_steps := diffusion_steps args;
     batch_size := batch_size args;
     num_samples := num_samples args;
     mbr_sample := mbr_sample args |}.

Definition none_args : Args :=
  {| model_name_or_path := "ckpts/emb128/model_5000.pt";
     out_dir := "out";
     top_p := (9 # 10)%Q;
     diffusion_steps := 2000;
     batch_size := 3;
     num_samples := 0;
     mbr_sample := 1 |}.

Definition empty_batch_args : Args :=
  {| model_name_or_path := "ckpts/emb128/model_5000.pt";
     out_dir := "out";
     top_p := (9 # 10)%Q;
     diffusion_steps := 2000;
     batch_size := 0;
     num_samples := 4;
     mbr_sample := 1 |}.

(** A store whose reference file is what the writer writes for two
    sentences. *)
Definition echo_world : world :=
  {| files := {[ sanity_check_path := text_of ["the cat sit"; "a dog"] ]};
     opened := [] |}.

Definition cli_args : gmap string configuration.pyval :=
  {[ "model_name_or_path" := configuration.PStr "ckpts/emb128/model_5000.pt";
     "batch_size" := configuration.PInt 50;
     "diffusion_steps" := configuration.PInt 200;
     "top_p" := configuration.PFloat (9 # 10);
     "seed" := configuration.PInt 101 ]}.

Definition saved_training_args : gmap string configuration.pyval :=
  {[ "batch_size" := configuration.PInt 64;
     "diffusion_steps" := configuration.PInt 2000;
     "seed" := configuration.PInt 10708;
     "checkpoint_path" := configuration.PStr "old/place" ]}.

(** Two parsers that each know the one text of their example. *)
Definition example_json_loads (text : string) : option configuration.pyval :=
  if String.eqb text "{saved}"
  then Some (configuration.PDict saved_training_args) else None.

Definition list_json_loads (text : string) : option configuration.pyval :=
  if String.eqb text "[]" then Some (configuration.PList []) else None.

Definition config_world : world :=
  {| files := {[ "ckpts/emb128/training_args.json" := "{saved}" ]};
     opened := [] |}.

Definition list_config_world : world :=
  {| files := {[ "ckpts/emb128/training_args.json" := "[]" ]};
     opened := [] |}.

(** ** The gather across workers (lines 92-94) *)

Inductive dist_exn :=
| DistributedError.

Section gather.
Context {row : Type}.

(** Modelled from the spec: [dist.all_gather], the collective of PyTorch
    that lines 92-94 call, is not under src/.  Section 4.3 of the
    specification says that the gather returns the batches of all workers
    in ascending rank order, identical on every worker, and that it fails
    with a DistributedError when a worker fails to contribute (crash,
    shape mismatch, rank gap), never returning a partial result.
    [contributions] maps a rank to the batch that its worker handed in;
    [sample] is the batch of the calling worker, after which line 92
    shapes the slots; the slots are filled in the order of [ranks]. *)
Fixpoint fill_slots (sample : list row) (contributions : gmap nat (list row))
    (ranks : list nat) : result dist_exn (list (list row)) :=
  match ranks with
  | [] => Ok []
  | rank :: ranks' =>
      match contributions !! rank with
      | None => Raise DistributedError
      | Some batch =>
          if (length batch =? length sample)%nat then
            bind (fill_slots sample contributions ranks')
                 (λ gathered_samples, Ok (batch :: gathered_samples))
          else Raise DistributedError
      end
  end.

(** Modelled from the spec: what the worker of rank [me] gets from the
    gather of one round (lines 92-93); the corpus of the round is the
    concatenation of the list (lines 94 and 98). *)
Definition gather (world_size : nat) (contributions : gmap nat (list row))
    (me : nat) : result dist_exn (list (list row)) :=
  match contributions !! me with
  | None => Raise DistributedError
  | Some sample => fill_slots sample contributions (seq 0 world_size)
  end.

(** The contributions of a round in which every worker hands in the batch
    that it drew. *)
Definition contributions_of (world_size : nat)
    (sample_fn : nat → nat → list row) (round : nat) : gmap nat (list row) :=
  list_to_map ((λ rank, (rank, sample_fn round rank)) <$> seq 0 world_size).
End gather.

(** Seven samples asked for, two candidates per sample, batches of
    three. *)
Definition seven_pair_args : Args :=
  {| model_name_or_path := "ckpts/emb128/model_5000.pt";
     out_dir := "out";
     top_p := (9 # 10)%Q;
     diffusion_steps := 2000;
     batch_size := 3;
     num_samples := 7;
     mbr_sample := 2 |}.

(** Three workers, of which the one of rank 1 handed in nothing. *)
Definition gapped_contributions : gmap nat (list nat) :=
  {[ 0 := [10; 11]; 2 := [30; 31] ]}.

Definition full_contributions : gmap nat (list nat) :=
  {[ 0 := [10; 11]; 1 := [20; 21]; 2 := [30; 31] ]}.

(** * Verification *)

(** ** The sanity check *)

Section sanity_check.
Implicit Types (lines sentences : list string) (i j k : nat) (q : Q).

Lemma gt_true q r : gt q r = true ↔ (r < q)%Q.
Proof.
  unfold gt. destruct (Qlt_le_dec r q) as [H|H]; split; try done.
  intros H'. exfalso. by apply (Qlt_not_le _ _ H').
Qed.

Lemma gt_false q r : gt q r = false ↔ (q <= r)%Q.
Proof.
  unfold gt. destruct (Qlt_le_dec r q) as [H|H]; split; try done.
  intros H'. exfalso. by apply (Qlt_not_le _ _ H).
Qed.

(** The three ways an iteration can end when the sentence exists. *)
Lemma compare_line_pass i line sentences s q :
  sentences !! i = Some s → similarity line s = Some q → (9 # 10 < q)%Q →
  compare_line i line sentences = Ok tt.
Proof.
  intros Hs Hq Hlt. unfold compare_line. rewrite Hs.
  unfold similarity in Hq. rewrite Hq.
  by apply gt_true in Hlt as ->.
Qed.

Lemma compare_line_mismatch i line sentences s q :
  sentences !! i = Some s → similarity line s = Some q → (q <= 9 # 10)%Q →
  compare_line i line sentences = Raise (AssertionError (mismatch i line s q)).
Proof.
  intros Hs Hq Hle. unfold compare_line. rewrite Hs.
  unfold similarity in Hq. rewrite Hq.
  by apply gt_false in Hle as ->.
Qed.

Lemma compare_line_Ok i line sentences :
  compare_line i line sentences = Ok tt →
  ∃ s q, sentences !! i = Some s ∧ similarity line s = Some q ∧ (9 # 10 < q)%Q.
Proof.
  unfold compare_line, similarity.
  destruct (sentences !! i) as [s|]; [|done].
  destruct (truediv _ _) as [q|] eqn:Hq; [|done].
  destruct (gt q (9 # 10)) eqn:Hgt; [|done].
  intros _. exists s, q. split; [done|]. split; [done|]. by apply gt_true.
Qed.

(** The loop either runs through, or stops at the first iteration that
    raises, with what that iteration raised. *)
Lemma compare_from_cases i0 lines sentences :
  (compare_from i0 lines sentences = Ok tt ∧
   ∀ k line, lines !! k = Some line →
             compare_line (i0 + k) line sentences = Ok tt)
  ∨ (∃ k line e,
       lines !! k = Some line ∧
       compare_line (i0 + k) line sentences = Raise e ∧
       compare_from i0 lines sentences = Raise e ∧
       ∀ j l, j < k → lines !! j = Some l →
              compare_line (i0 + j) l sentences = Ok tt).
Proof.
  revert i0. induction lines as [|line lines IH]; intros i0.
  - left. split; [done|]. intros k l Hk. by rewrite lookup_nil in Hk.
  - simpl. destruct (compare_line i0 line sentences) as [[]|e] eqn:Hline.
    + simpl. destruct (IH (S i0)) as [[Hok Hall]|(k & l & e & Hk & He & Hr & Hbefore)].
      * left. split; [done|]. intros [|k] l Hk; simplify_eq/=.
        -- by rewrite Nat.add_0_r.
        -- rewrite Nat.add_succ_r. by apply Hall.
      * right. exists (S k), l, e. rewrite Nat.add_succ_r. repeat split; try done.
        intros [|j] l' Hj Hl'; simplify_eq/=.
        -- by rewrite Nat.add_0_r.
        -- rewrite Nat.add_succ_r. apply Hbefore; [lia|done].
    + right. exists 0, line, e. rewrite Nat.add_0_r. repeat split; try done.
      intros j l Hj. lia.
Qed.

Lemma sanity_check_stops_at i lines sentences line s q :
  lines !! i = Some line → sentences !! i = Some s →
  similarity line s = Some q → (q <= 9 # 10)%Q →
  (∀ j l, j < i → lines !! j = Some l →
     ∃ s' q', sentences !! j = Some s' ∧ similarity l s' = Some q' ∧
              (9 # 10 < q')%Q) →
  sanity_check lines sentences = Raise (AssertionError (mismatch i line s q)).
Proof.
  intros Hline Hs Hq Hle Hbefore.
  pose proof (compare_line_mismatch i line sentences s q Hs Hq Hle) as Hi.
  unfold sanity_check.
  destruct (compare_from_cases 0 lines sentences)
    as [[_ Hall]|(k & l & e & Hk & He & -> & Hfirst)].
  - specialize (Hall i line Hline). simpl in Hall. congruence.
  - simpl in He, Hfirst.
    destruct (Nat.lt_trichotomy k i) as [Hlt|[->|Hgt]].
    + destruct (Hbefore k l Hlt Hk) as (s' & q' & Hs' & Hq' & Hlt').
      rewrite (compare_line_pass k l sentences s' q') in He; done.
    + congruence.
    + specialize (Hfirst i line Hgt Hline). congruence.
Qed.

Lemma sanity_check_Ok lines sentences :
  sanity_check lines sentences = Ok tt ↔
  ∀ i line, lines !! i = Some line →
    ∃ s q, sentences !! i = Some s ∧ similarity line s = Some q ∧
           (9 # 10 < q)%Q.
Proof.
  unfold sanity_check.
  destruct (compare_from_cases 0 lines sentences)
    as [[Hok Hall]|(k & l & e & Hk & He & Hr & _)]; simpl in *.
  - split; [|done]. intros _ i line Hline. by eapply compare_line_Ok, Hall.
  - split; [congruence|]. intros Hall.
    destruct (Hall k l Hk) as (s & q & Hs & Hq & Hlt).
    rewrite (compare_line_pass k l sentences s q) in He; done.
Qed.
End sanity_check.

(** Claim C1, as the code has it.  At the first index [i] of the reference
    corpus whose Jaccard similarity with the generated sentence [i] is at
    most 0.9 (every earlier pair being above 0.9), the sanity check raises
    the assertion error that reports [i], the similarity, the two token
    sets and their intersection [common], and stops there.  The check
    ends without an error exactly when every pair is above 0.9.  For the
    reference line [the cat sat] and the generated line [the cat sit] the
    similarity is 1/2 and the error is raised. *)
Theorem sanity_check_reports_first_mismatch :
  (∀ (lines sentences : list string) (i : nat) (line s : string) (q : Q),
     lines !! i = Some line → sentences !! i = Some s →
     similarity line s = Some q → (q <= 9 # 10)%Q →
     (∀ j l, j < i → lines !! j = Some l →
        ∃ s' q', sentences !! j = Some s' ∧ similarity l s' = Some q' ∧
                 (9 # 10 < q')%Q) →
     sanity_check lines sentences = Raise (AssertionError (mismatch i line s q)))
  ∧ (∀ lines sentences : list string,
       (∀ i line, lines !! i = Some line →
          ∃ s q, sentences !! i = Some s ∧ similarity line s = Some q ∧
                 (9 # 10 < q)%Q) ↔
       sanity_check lines sentences = Ok tt)
  ∧ sanity_check ["the cat sat"] ["the cat sit"] =
      Raise (AssertionError
               {| line_no := 0;
                  jaccard := 1 # 2;
                  sanity_check_line_toks := {["the"; "cat"; "sat"]};
                  generated_sentence_toks := {["the"; "cat"; "sit"]};
                  common := {["the"; "cat"]} |}).
Proof.
  split; [|split].
  - intros lines sentences i line s q. apply sanity_check_stops_at.
  - intros lines sentences. symmetry. apply sanity_check_Ok.
  - vm_compute. reflexivity.
Qed.

(** C1 at a reference of two lines whose second line is the mismatch. *)
Lemma sanity_check_reports_first_mismatch_witness :
  ["a b"; "the cat sat"] !! 1 = Some "the cat sat" ∧
  ["a  b"; "the cat sit"] !! 1 = Some "the cat sit" ∧
  similarity "the cat sat" "the cat sit" = Some (1 # 2)%Q ∧
  sanity_check ["a b"; "the cat sat"] ["a  b"; "the cat sit"] =
    Raise (AssertionError (mismatch 1 "the cat sat" "the cat sit" (1 # 2))).
Proof.
  split; [reflexivity|]. split; [reflexivity|]. split; [vm_compute; reflexivity|].
  apply (proj1 sanity_check_reports_first_mismatch
           ["a b"; "the cat sat"] ["a  b"; "the cat sit"] 1
           "the cat sat" "the cat sit" (1 # 2)%Q).
  - reflexivity.
  - reflexivity.
  - vm_compute. reflexivity.
  - vm_compute. discriminate.
  - intros j l Hj Hl. assert (j = 0) as -> by lia. simpl in Hl.
    injection Hl as <-. exists "a  b", 1%Q.
    split; [reflexivity|]. split; vm_compute; reflexivity.
Defined.

(** C1 as stated fails on [the cat sat] against [the cat sit]: the fifth
    value of the error is the intersection {the, cat}, while the symmetric
    difference of the two token sets is {sat, sit}. *)
Lemma sanity_check_payload_counterexample :
  ∃ m, sanity_check ["the cat sat"] ["the cat sit"] = Raise (AssertionError m) ∧
       symmetric_difference (sanity_check_line_toks m) (generated_sentence_toks m)
       = {["sat"; "sit"]} ∧
       common m = {["the"; "cat"]} ∧
       common m ≠ symmetric_difference (sanity_check_line_toks m)
                                       (generated_sentence_toks m).
Proof.
  exists (mismatch 0 "the cat sat" "the cat sit" (1 # 2)).
  split; [vm_compute; reflexivity|].
  split; [vm_compute; reflexivity|]. split; [vm_compute; reflexivity|].
  intros Heq. apply (f_equal (λ X : gset string, bool_decide ("sat" ∈ X))) in Heq.
  vm_compute in Heq. discriminate.
Qed.

(** ** The sampling loop *)

Section sampling_facts.
Context {row : Type}.
Variable world_size : nat.
Variable sample_fn : nat → nat → list row.
Variable args : Args.

Local Abbreviation reaches := (loop_reaches world_size sample_fn args).
Local Abbreviation body := (loop_body world_size sample_fn).
Local Abbreviation loop := (sampling_loop world_size sample_fn).
Local Abbreviation gather := (all_gather world_size sample_fn).
Local Abbreviation batches_shaped := (batches_shaped sample_fn args).

Lemma length_all_gather round : length (gather round) = world_size.
Proof. unfold all_gather. by rewrite length_fmap, length_seq. Qed.

Lemma all_gather_shaped round :
  batches_shaped →
  Forall (λ a, Z.of_nat (length a) = batch_size args) (gather round).
Proof.
  intros Hshape. unfold all_gather. apply Forall_fmap, Forall_forall.
  intros rank _. apply Hshape.
Qed.

Lemma length_concat_shaped (b : Z) (arrays : list (list row)) :
  Forall (λ a, Z.of_nat (length a) = b) arrays →
  Z.of_nat (length (concat arrays)) = (Z.of_nat (length arrays) * b)%Z.
Proof.
  induction 1 as [|a arrays Ha _ IH]; simpl; [lia|].
  rewrite length_app. lia.
Qed.

(** The loop invariant. *)
Lemma reaches_invariant st :
  reaches st →
  length (all_samples st) = rounds st * world_size ∧
  (batches_shaped →
   Forall (λ a, Z.of_nat (length a) = batch_size args) (all_samples st)).
Proof.
  induction 1 as [|st _ [IHlen IHshape] _]; simpl.
  - split; [done|]. intros _. constructor.
  - split.
    + rewrite length_app, length_all_gather. lia.
    + intros Hshape. apply Forall_app. split; [by apply IHshape|].
      by apply all_gather_shaped.
Qed.

(** Running the loop from a reachable state ends in a reachable state
    in which the test fails. *)
Lemma sampling_loop_reaches fuel st st' :
  reaches st → loop fuel args st = Some st' →
  reaches st' ∧ loop_guard args st' = false.
Proof.
  revert st. induction fuel as [|fuel IH]; intros st Hst; simpl;
    destruct (loop_guard args st) eqn:Hguard; try done.
  - intros [= <-]. done.
  - intros Hrun. apply (IH (body st)); [|done]. by constructor.
  - intros [= <-]. done.
Qed.

(** With a positive batch size and at least one worker the loop ends
    within [num_samples] rounds. *)
Lemma sampling_loop_terminates fuel st :
  (1 ≤ batch_size args)%Z → (1 ≤ world_size)%nat →
  (num_samples args - Z.of_nat (length (all_samples st)) * batch_size args
     ≤ Z.of_nat fuel)%Z →
  is_Some (loop fuel args st).
Proof.
  intros Hb Hw. revert st. induction fuel as [|fuel IH]; intros st Hfuel; simpl;
    destruct (loop_guard args st) eqn:Hguard; try done.
  - unfold loop_guard in Hguard. apply Z.ltb_lt in Hguard. lia.
  - apply IH. simpl. rewrite length_app, length_all_gather. nia.
Qed.

Lemma sampling_loop_more_fuel fuel fuel' st st' :
  loop fuel args st = Some st' → (fuel ≤ fuel')%nat → loop fuel' args st = Some st'.
Proof.
  revert fuel' st. induction fuel as [|fuel IH]; intros fuel' st; simpl;
    destruct (loop_guard args st) eqn:Hguard; try done.
  - intros [= <-] _. destruct fuel'; simpl; by rewrite Hguard.
  - intros Hrun Hle. destruct fuel' as [|fuel']; [lia|]. simpl.
    rewrite Hguard. apply IH; [done|lia].
  - intros [= <-] _. destruct fuel'; simpl; by rewrite Hguard.
Qed.

Lemma slice_to_nonneg {A} (k : Z) (l : list A) :
  (0 ≤ k)%Z → slice_to k l = take (Z.to_nat k) l.
Proof. intros Hk. unfold slice_to. by destruct (Z.ltb_spec k 0); [lia|]. Qed.
End sampling_facts.

(** Claim C6.  In every state in which the loop test is evaluated, the
    number of gathered samples is the number of completed rounds times the
    batch size times the number of workers, it is the count
    [len(all_samples) * batch_size] that the loop tests and logs, and it is
    a multiple of batch size times workers. *)
Theorem gathered_count_multiple_of_batch_times_workers :
  ∀ {row : Type} (world_size : nat) (sample_fn : nat → nat → list row)
    (args : Args) (st : loop_state),
    batches_shaped sample_fn args →
    loop_reaches world_size sample_fn args st →
    Z.of_nat (length (concat (all_samples st)))
      = (Z.of_nat (rounds st) * batch_size args * Z.of_nat world_size)%Z
    ∧ (Z.of_nat (length (all_samples st)) * batch_size args)%Z
      = (Z.of_nat (rounds st) * batch_size args * Z.of_nat world_size)%Z
    ∧ (batch_size args * Z.of_nat world_size
       | Z.of_nat (length (concat (all_samples st))))%Z.
Proof.
  intros row world_size sample_fn args st Hshape Hreach.
  destruct (reaches_invariant _ _ _ _ Hreach) as [Hlen Hall].
  assert (Z.of_nat (length (concat (all_samples st)))
          = (Z.of_nat (rounds st) * batch_size args * Z.of_nat world_size)%Z) as Hcount.
  { rewrite (length_concat_shaped (batch_size args)) by auto. rewrite Hlen. lia. }
  split; [done|]. split; [rewrite Hlen; lia|].
  rewrite Hcount. exists (Z.of_nat (rounds st)). lia.
Qed.

(** C6 after one round of two workers drawing three samples each. *)
Lemma gathered_count_multiple_of_batch_times_workers_witness :
  Z.of_nat (length (concat (all_samples (loop_body 2 numbered_batch loop_init))))
    = (Z.of_nat 1 * 3 * Z.of_nat 2)%Z
  ∧ (Z.of_nat (length (all_samples (loop_body 2 numbered_batch loop_init))) * 3)%Z
    = (Z.of_nat 1 * 3 * Z.of_nat 2)%Z
  ∧ (3 * Z.of_nat 2
     | Z.of_nat (length (concat (all_samples (loop_body 2 numbered_batch loop_init)))))%Z.
Proof.
  apply (gathered_count_multiple_of_batch_times_workers
           2 numbered_batch triple_args (loop_body 2 numbered_batch loop_init)).
  - intros round rank. reflexivity.
  - apply reaches_body; [apply reaches_init | reflexivity].
Defined.

(** What lines 73-99 compute.  With at least one requested sample, a
    repetition factor of at least one, a positive batch size and at least
    one worker, the loop ends (any fuel from [num_samples] on gives the
    same final state), and the slice of line 99 keeps the longest prefix
    of the gathered corpus of at most [num_samples * mbr_sample] samples.
    The loop gathers only up to [num_samples], so the slice reaches its
    target for a repetition factor of one and can fall short of it
    otherwise. *)
Theorem truncation_keeps_at_most_target :
  ∀ {row : Type} (world_size : nat) (sample_fn : nat → nat → list row)
    (args : Args),
    (1 ≤ num_samples args)%Z → (1 ≤ mbr_sample args)%Z →
    (1 ≤ batch_size args)%Z → (1 ≤ world_size)%nat →
    batches_shaped sample_fn args →
    ∃ (st : loop_state) (arr : list row),
      (∀ fuel, (Z.to_nat (num_samples args) ≤ fuel)%nat →
         sampling_loop world_size sample_fn fuel args loop_init = Some st ∧
         collect world_size sample_fn fuel args = Some (Ok arr))
      ∧ arr = take (Z.to_nat (num_samples args * mbr_sample args))
                   (concat (all_samples st))
      ∧ (num_samples args ≤ Z.of_nat (length (concat (all_samples st))))%Z
      ∧ Z.of_nat (length arr)
        = Z.min (num_samples args * mbr_sample args)
                (Z.of_nat (length (concat (all_samples st))))
      ∧ (mbr_sample args = 1%Z → Z.of_nat (length arr) = num_samples args).
Proof.
  intros row world_size sample_fn args Hn Hm Hb Hw Hshape.
  destruct (sampling_loop_terminates world_size sample_fn args
              (Z.to_nat (num_samples args)) loop_init Hb Hw) as [st Hrun].
  { simpl. lia. }
  destruct (sampling_loop_reaches _ _ _ _ _ _ (reaches_init _ _ _) Hrun)
    as [Hreach Hguard].
  destruct (reaches_invariant _ _ _ _ Hreach) as [_ Hall].
  pose proof (length_concat_shaped (batch_size args) _ (Hall Hshape)) as Hcount.
  unfold loop_guard in Hguard. apply Z.ltb_ge in Hguard.
  assert (truncate args st
          = Ok (take (Z.to_nat (num_samples args * mbr_sample args))
                     (concat (all_samples st)))) as Htrunc.
  { unfold truncate, np_concatenate.
    destruct (all_samples st) as [|a arrays] eqn:Harr; [simpl in Hguard; lia|].
    simpl. by rewrite slice_to_nonneg by lia. }
  eexists st, _. split; [|split; [reflexivity|]].
  - intros fuel Hfuel.
    pose proof (sampling_loop_more_fuel _ _ _ _ _ _ _ Hrun Hfuel) as Hrun'.
    split; [done|]. unfold collect. by rewrite Hrun', <- Htrunc.
  - rewrite length_take. split; [lia|]. split; [lia|]. intros Hone. lia.
Qed.

(** Seven samples asked from two workers with batches of three. *)
Lemma truncation_keeps_at_most_target_witness :
  ∃ (st : loop_state) (arr : list nat),
    (∀ fuel, (Z.to_nat 7 ≤ fuel)%nat →
       sampling_loop 2 numbered_batch fuel triple_args loop_init = Some st ∧
       collect 2 numbered_batch fuel triple_args = Some (Ok arr))
    ∧ arr = take (Z.to_nat (7 * 1)) (concat (all_samples st))
    ∧ (7 ≤ Z.of_nat (length (concat (all_samples st))))%Z
    ∧ Z.of_nat (length arr)
      = Z.min (7 * 1) (Z.of_nat (length (concat (all_samples st))))
    ∧ (1%Z = 1%Z → Z.of_nat (length arr) = 7%Z).
Proof.
  apply (truncation_keeps_at_most_target 2 numbered_batch triple_args).
  - vm_compute. discriminate.
  - vm_compute. discriminate.
  - vm_compute. discriminate.
  - lia.
  - intros round rank. reflexivity.
Defined.

(** Claim C2 at two configurations with a repetition factor of two.  The
    slice of line 99 aims at [num_samples * mbr_sample] samples, but the
    loop of line 73 stops gathering at [num_samples]: with one worker,
    batches of one and one requested sample, 1 sample is decoded and not
    2; with two workers, batches of three and seven requested samples, 12
    samples are decoded, which is neither 7 nor the target 14. *)
Theorem truncation_misses_target_with_two_candidates :
  (1 ≤ num_samples pair_args)%Z ∧ (1 ≤ mbr_sample pair_args)%Z
  ∧ collect 1 (λ _ _, [()]) 4 pair_args = Some (Ok [()])
  ∧ Z.of_nat (length [()]) ≠ (num_samples pair_args * mbr_sample pair_args)%Z
  ∧ ∃ arr : list nat,
      collect 2 numbered_batch 7 seven_pair_args = Some (Ok arr)
      ∧ length arr = 12
      ∧ (num_samples seven_pair_args * mbr_sample seven_pair_args)%Z = 14%Z
      ∧ num_samples seven_pair_args = 7%Z.
Proof.
  split; [vm_compute; discriminate|]. split; [vm_compute; discriminate|].
  split; [reflexivity|]. split; [vm_compute; discriminate|].
  eexists. split; [reflexivity|]. split; [reflexivity|]. split; reflexivity.
Qed.

(** ** Decoding *)

Section decoding.
Context {A B : Type} (f : A → result exn B).

Lemma for_each_Ok l ys :
  for_each f l = Ok ys ↔ Forall2 (λ x y, f x = Ok y) l ys.
Proof.
  revert ys. induction l as [|x l IH]; intros ys; simpl.
  - split; [intros [= <-]; constructor | by inversion 1].
  - destruct (f x) as [y|e] eqn:Hx; simpl.
    + destruct (for_each f l) as [ys'|e] eqn:Hl; simpl.
      * split.
        -- intros [= <-]. constructor; [done|]. by apply IH.
        -- inversion 1 as [|? y' ? ys'' Hy Hrest]; subst.
           apply IH in Hrest. congruence.
      * split; [done|]. inversion 1 as [|? y' ? ys'' Hy Hrest]; subst.
        apply IH in Hrest. congruence.
    + split; [done|]. inversion 1; congruence.
Qed.

Lemma for_each_Raise l e :
  for_each f l = Raise e → ∃ x, x ∈ l ∧ f x = Raise e.
Proof.
  induction l as [|x l IH]; simpl; [done|].
  destruct (f x) as [y|e'] eqn:Hx; simpl.
  - destruct (for_each f l) as [ys'|e'] eqn:Hl; simpl; [done|].
    intros [= <-]. destruct IH as (x' & Hin & Hx'); [done|].
    exists x'. split; [by constructor|done].
  - intros [= <-]. exists x. split; [constructor|done].
Qed.
End decoding.

Lemma getitem_Ok tokenizer x w :
  getitem tokenizer x = Ok w ↔ tokenizer !! x = Some w.
Proof. unfold getitem. destruct (tokenizer !! x); split; congruence. Qed.

Lemma getitem_Raise tokenizer x e :
  getitem tokenizer x = Raise e → e = KeyError x ∧ tokenizer !! x = None.
Proof. unfold getitem. destruct (tokenizer !! x); [done|]. by intros [= <-]. Qed.

Lemma decode_sentence_Ok tokenizer seq sentence :
  decode_sentence tokenizer seq = Ok sentence ↔
  ∃ words, Forall2 (λ x w, tokenizer !! x = Some w) seq words ∧
           sentence = join " " words.
Proof.
  unfold decode_sentence.
  destruct (for_each (getitem tokenizer) seq) as [words|e] eqn:Hwords; simpl.
  - split.
    + intros [= <-]. apply for_each_Ok in Hwords. exists words. split; [|done].
      eapply Forall2_impl; [done|]. intros x w. apply getitem_Ok.
    + intros (words' & Hall & ->).
      assert (for_each (getitem tokenizer) seq = Ok words') as Hok; [|congruence].
      apply for_each_Ok. eapply Forall2_impl; [done|]. intros x w. apply getitem_Ok.
  - split; [done|]. intros (words & Hall & _).
    assert (for_each (getitem tokenizer) seq = Ok words) as Hok; [|congruence].
    apply for_each_Ok. eapply Forall2_impl; [done|]. intros x w. apply getitem_Ok.
Qed.

Lemma decode_sentence_Raise tokenizer seq e :
  decode_sentence tokenizer seq = Raise e →
  ∃ key, e = KeyError key ∧ key ∈ seq ∧ tokenizer !! key = None.
Proof.
  unfold decode_sentence.
  destruct (for_each (getitem tokenizer) seq) as [words|e'] eqn:Hwords; simpl; [done|].
  intros [= <-]. apply for_each_Raise in Hwords as (x & Hin & Hx).
  apply getitem_Raise in Hx as [-> Hnone]. by exists x.
Qed.

(** Claim C8.  Decoding succeeds exactly when every index has an entry
    in the table, and then every word of every sentence is the entry of
    its index; the only error decoding raises is [KeyError] for an index
    that occurs in the input and has no entry; and an index without entry
    anywhere in the input makes decoding raise such an error. *)
Theorem decode_uses_table_or_raises_KeyError :
  ∀ (tokenizer : gmap Z string) (indices : list (list Z)),
    (∀ sentences,
       decode_sentences tokenizer indices = Ok sentences ↔
       Forall2 (λ seq sentence,
                  ∃ words, Forall2 (λ x w, tokenizer !! x = Some w) seq words ∧
                           sentence = join " " words)
               indices sentences)
    ∧ (∀ e, decode_sentences tokenizer indices = Raise e →
         ∃ seq key, e = KeyError key ∧ seq ∈ indices ∧ key ∈ seq ∧
                    tokenizer !! key = None)
    ∧ (∀ seq x, seq ∈ indices → x ∈ seq → tokenizer !! x = None →
         ∃ key, decode_sentences tokenizer indices = Raise (KeyError key) ∧
                tokenizer !! key = None).
Proof.
  intros tokenizer indices.
  assert (∀ sentences,
       decode_sentences tokenizer indices = Ok sentences ↔
       Forall2 (λ seq sentence,
                  ∃ words, Forall2 (λ x w, tokenizer !! x = Some w) seq words ∧
                           sentence = join " " words)
               indices sentences) as Hok.
  { intros sentences. unfold decode_sentences. rewrite for_each_Ok.
    split; intros H; (eapply Forall2_impl; [exact H|]);
      intros seq sentence; apply decode_sentence_Ok. }
  assert (∀ e, decode_sentences tokenizer indices = Raise e →
         ∃ seq key, e = KeyError key ∧ seq ∈ indices ∧ key ∈ seq ∧
                    tokenizer !! key = None) as Hraise.
  { intros e He. apply for_each_Raise in He as (seq & Hin & Hseq).
    apply decode_sentence_Raise in Hseq as (key & -> & Hkey & Hnone).
    by exists seq, key. }
  split; [done|]. split; [done|].
  intros seq x Hseq Hx Hnone.
  destruct (decode_sentences tokenizer indices) as [sentences|e] eqn:Hrun.
  - exfalso. pose proof (proj1 (Hok sentences) eq_refl) as Hrun'.
    apply list_elem_of_lookup in Hseq as [i Hi].
    destruct (Forall2_lookup_l _ _ _ _ _ Hrun' Hi) as (s & _ & words & Hall & _).
    apply list_elem_of_lookup in Hx as [j Hj].
    destruct (Forall2_lookup_l _ _ _ _ _ Hall Hj) as (w & _ & Hw). congruence.
  - destruct (Hraise e eq_refl) as (seq' & key & -> & _ & _ & Hkey).
    by exists key.
Qed.

(** C8 on a table of two words and a sequence that holds the index 5. *)
Lemma decode_uses_table_or_raises_KeyError_witness :
  ∃ key, decode_sentences small_vocab [[0; 1]; [1; 5; 0]]%Z = Raise (KeyError key) ∧
         small_vocab !! key = None.
Proof.
  apply (proj2 (proj2 (decode_uses_table_or_raises_KeyError
                         small_vocab [[0; 1]; [1; 5; 0]]%Z)) [1; 5; 0]%Z 5%Z).
  - apply list_elem_of_In. simpl. auto.
  - apply list_elem_of_In. simpl. auto.
  - reflexivity.
Defined.

(** ** Strings, lines and JSON *)

Lemma app_cons_s (x : ascii) (a b : string) :
  String x a +:+ b = String x (a +:+ b).
Proof. reflexivity. Qed.

Lemma app_nil_l_s (b : string) : "" +:+ b = b.
Proof. reflexivity. Qed.

Ltac string_simpl := rewrite ?app_cons_s, ?app_nil_l_s; simpl.

Lemma app_assoc_s (a b c : string) : (a +:+ b) +:+ c = a +:+ (b +:+ c).
Proof. induction a as [|x a IH]; string_simpl; [done|]. by rewrite IH. Qed.

Lemma app_nil_r_s (a : string) : a +:+ "" = a.
Proof. induction a as [|x a IH]; string_simpl; [done|]. by rewrite IH. Qed.

Lemma has_char_app c (a b : string) :
  has_char c (a +:+ b) = has_char c a || has_char c b.
Proof.
  induction a as [|x a IH]; string_simpl; [done|]. rewrite IH. by rewrite orb_assoc.
Qed.

(** Reading lines back. *)

Lemma universal_newlines_id s :
  has_char CR s = false → universal_newlines s = s.
Proof.
  induction s as [|c s IH]; simpl; [done|].
  intros [Hc Hs]%orb_false_elim. rewrite Hc. by rewrite IH.
Qed.

Lemma lines_app_line s rest :
  has_char LF s = false →
  lines (s +:+ newline +:+ rest) = (s +:+ newline) :: lines rest.
Proof.
  induction s as [|c s IH]; string_simpl; [done|].
  intros [Hc Hs]%orb_false_elim. rewrite Hc. by rewrite IH.
Qed.

Lemma lines_terminated (f : string → string) (l : list string) :
  Forall (λ s, has_char LF (f s) = false) l →
  lines (foldr (λ s acc, f s +:+ newline +:+ acc) "" l)
  = (λ s, f s +:+ newline) <$> l.
Proof.
  induction 1 as [|s l Hs _ IH]; simpl; [done|].
  by rewrite lines_app_line, IH.
Qed.

Lemma has_char_terminated c (f : string → string) (l : list string) :
  has_char c newline = false →
  Forall (λ s, has_char c (f s) = false) l →
  has_char c (foldr (λ s acc, f s +:+ newline +:+ acc) "" l) = false.
Proof.
  intros Hnl. induction 1 as [|s l Hs _ IH]; simpl; [done|].
  by rewrite !has_char_app, Hs, Hnl, IH.
Qed.

Lemma readlines_text_of sentences :
  Forall no_linebreak sentences →
  readlines (text_of sentences) = (λ s, s +:+ newline) <$> sentences.
Proof.
  intros Hall. unfold readlines, text_of.
  rewrite universal_newlines_id.
  - apply (lines_terminated id). eapply Forall_impl; [done|]. by intros s [? ?].
  - apply (has_char_terminated CR id); [done|].
    eapply Forall_impl; [done|]. by intros s [? ?].
Qed.

(** JSON lines. *)

Lemma escape_char_plain c :
  has_char LF (Json.escape_char c) = false ∧
  has_char CR (Json.escape_char c) = false.
Proof. by destruct c as [[] [] [] [] [] [] [] []]. Qed.

Lemma escape_plain s :
  has_char LF (Json.escape s) = false ∧ has_char CR (Json.escape s) = false.
Proof.
  induction s as [|c s [IH1 IH2]]; simpl; [done|].
  destruct (escape_char_plain c) as [H1 H2].
  by rewrite !has_char_app, H1, H2, IH1, IH2.
Qed.

Lemma dumps_singleton_plain s : no_linebreak (Json.dumps_singleton s).
Proof.
  destruct (escape_plain s) as [H1 H2].
  unfold no_linebreak, Json.dumps_singleton, Json.encode_basestring_ascii.
  simpl. by rewrite !has_char_app, H1, H2.
Qed.

Lemma readlines_json_of sentences :
  readlines (json_of sentences)
  = (λ s, Json.dumps_singleton s +:+ newline) <$> sentences.
Proof.
  unfold readlines, json_of. rewrite universal_newlines_id.
  - apply (lines_terminated Json.dumps_singleton), Forall_forall.
    intros s _. apply dumps_singleton_plain.
  - apply (has_char_terminated CR Json.dumps_singleton); [done|].
    apply Forall_forall. intros s _. apply dumps_singleton_plain.
Qed.

Lemma read_chars_escape_char c tail :
  Json.read_chars (Json.escape_char c +:+ tail)
  = match Json.read_chars tail with
    | Some (t, rest) => Some (String c t, rest)
    | None => None
    end.
Proof. by destruct c as [[] [] [] [] [] [] [] []]. Qed.

Lemma read_chars_escape s rest :
  Json.read_chars (Json.escape s +:+ String Json.quote rest) = Some (s, rest).
Proof.
  induction s as [|c s IH]; simpl; [done|].
  by rewrite app_assoc_s, read_chars_escape_char, IH.
Qed.

Lemma loads_dumps_singleton s :
  Json.loads_singleton (Json.dumps_singleton s) = Some [s].
Proof.
  unfold Json.dumps_singleton, Json.encode_basestring_ascii.
  rewrite !app_cons_s, app_nil_l_s, app_assoc_s, app_cons_s, app_nil_l_s.
  unfold Json.loads_singleton. by rewrite Ascii.eqb_refl, read_chars_escape.
Qed.

(** ** The two output files *)

Lemma txt_json_distinct base : base +:+ ".txt" ≠ base +:+ ".json".
Proof. intros H. by apply (inj (String.app base)) in H. Qed.

Lemma write_files_eq path data w old :
  files w !! path = Some old →
  files (write path data w) !! path = Some (old +:+ data).
Proof. intros H. unfold write. simpl. by rewrite lookup_alter_eq, H. Qed.

Lemma write_files_ne path path' data w :
  path ≠ path' → files (write path data w) !! path' = files w !! path'.
Proof. intros H. unfold write. simpl. by rewrite lookup_alter_ne. Qed.

Lemma write_loop_files base sentences w t0 j0 :
  files w !! (base +:+ ".txt") = Some t0 →
  files w !! (base +:+ ".json") = Some j0 →
  files (foldl (write_sentence base) w sentences) !! (base +:+ ".txt")
    = Some (t0 +:+ text_of sentences)
  ∧ files (foldl (write_sentence base) w sentences) !! (base +:+ ".json")
    = Some (j0 +:+ json_of sentences).
Proof.
  revert w t0 j0. induction sentences as [|s sentences IH]; intros w t0 j0 Ht Hj.
  - simpl. by rewrite !app_nil_r_s.
  - simpl.
    destruct (IH (write_sentence base w s) (t0 +:+ s +:+ newline)
                 (j0 +:+ Json.dumps_singleton s +:+ newline)) as [IHt IHj].
    + unfold write_sentence.
      rewrite write_files_ne by (symmetry; apply txt_json_distinct).
      by apply write_files_eq.
    + unfold write_sentence. apply write_files_eq.
      by rewrite write_files_ne by apply txt_json_distinct.
    + by rewrite IHt, IHj, !app_assoc_s.
Qed.

Lemma write_loop_opened base sentences w :
  opened (foldl (write_sentence base) w sentences) = opened w.
Proof.
  revert w. induction sentences as [|s sentences IH]; intros w; simpl; [done|].
  by rewrite IH.
Qed.

Lemma write_loop_other base sentences w path :
  path ≠ base +:+ ".txt" → path ≠ base +:+ ".json" →
  files (foldl (write_sentence base) w sentences) !! path = files w !! path.
Proof.
  intros Ht Hj. revert w.
  induction sentences as [|s sentences IH]; intros w; simpl; [done|].
  rewrite IH. unfold write_sentence. by rewrite !write_files_ne.
Qed.

Section write_outputs_facts.
Variable repr_float : Q → string.
Variables (args : Args) (sentences : list string) (w : world).

Local Abbreviation base := (output_file_basepath repr_float args).
Local Abbreviation out := (write_outputs repr_float args sentences w).
Local Abbreviation wr := (written repr_float args sentences w).

Lemma write_outputs_unfold :
  out = ((open_r sanity_check_path wr).1,
         match files wr !! sanity_check_path with
         | Some content => sanity_check (readlines content) sentences
         | None => Raise (FileNotFoundError sanity_check_path)
         end).
Proof.
  unfold write_outputs, open_r, written. cbv zeta.
  by destruct (files _ !! sanity_check_path).
Qed.

Lemma write_outputs_files :
  files out.1 !! (base +:+ ".txt") = Some (text_of sentences) ∧
  files out.1 !! (base +:+ ".json") = Some (json_of sentences).
Proof.
  rewrite write_outputs_unfold. simpl.
  assert (files (open_r sanity_check_path wr).1 = files wr) as ->.
  { unfold open_r. by destruct (files wr !! sanity_check_path). }
  unfold written.
  destruct (write_loop_files base sentences
              (open_w (base +:+ ".json") (open_w (base +:+ ".txt") w)) "" "")
    as [Ht Hj].
  - simpl. rewrite lookup_insert_ne by (symmetry; apply txt_json_distinct).
    apply lookup_insert_eq.
  - simpl. apply lookup_insert_eq.
  - by rewrite Ht, Hj.
Qed.

Lemma write_outputs_reads :
  reads out.1 = (reads w ++ [sanity_check_path])%list.
Proof.
  rewrite write_outputs_unfold. simpl.
  assert (opened (open_r sanity_check_path wr).1
          = (opened wr ++ [OpenRead sanity_check_path])%list) as Hopened.
  { unfold open_r. by destruct (files wr !! sanity_check_path). }
  unfold reads. rewrite Hopened. unfold written.
  rewrite write_loop_opened. simpl. rewrite !omap_app. simpl.
  by rewrite !app_nil_r.
Qed.

Lemma write_outputs_outcome :
  out.2 = match files out.1 !! sanity_check_path with
          | Some content => sanity_check (readlines content) sentences
          | None => Raise (FileNotFoundError sanity_check_path)
          end.
Proof.
  rewrite write_outputs_unfold. simpl.
  assert (files (open_r sanity_check_path wr).1 = files wr) as ->.
  { unfold open_r. by destruct (files wr !! sanity_check_path). }
  done.
Qed.
End write_outputs_facts.

(** ** File names *)

Section paths.
Import PosixPath.
Implicit Types (p x n : string).

Lemma rfind_bounds c p : (-1 ≤ rfind c p < Z.of_nat (String.length p))%Z.
Proof.
  induction p as [|a p IH]; simpl; [lia|].
  destruct (Z.leb_spec 0 (rfind c p)); [lia|].
  destruct (Ascii.eqb a c); lia.
Qed.

Lemma rfind_absent c n : has_char c n = false → rfind c n = (-1)%Z.
Proof.
  induction n as [|a n IH]; simpl; [done|].
  intros [Ha Hn]%orb_false_elim. rewrite (IH Hn). simpl. by rewrite Ha.
Qed.

Lemma rfind_app_absent c x n :
  has_char c n = false → rfind c (x +:+ n) = rfind c x.
Proof.
  intros Hn. induction x as [|a x IH]; string_simpl.
  - rewrite (rfind_absent c n Hn). done.
  - by rewrite IH.
Qed.

Lemma suffix_app i x n :
  (i ≤ String.length x)%nat → suffix i (x +:+ n) = suffix i x +:+ n.
Proof.
  revert i. induction x as [|a x IH]; intros [|i] Hi; string_simpl;
    try done; simpl in Hi; try lia.
  apply IH. lia.
Qed.

Lemma basename_app x n :
  has_char sep n = false → basename (x +:+ n) = basename x +:+ n.
Proof.
  intros Hn. unfold basename. rewrite (rfind_app_absent _ _ _ Hn).
  apply suffix_app. pose proof (rfind_bounds sep x). lia.
Qed.

Lemma basename_no_sep p : has_char sep (basename p) = false.
Proof.
  unfold basename. induction p as [|a p IH]; simpl; [done|].
  destruct (Z.leb_spec 0 (rfind sep p)) as [Hr|Hr].
  - replace (Z.to_nat (rfind sep p + 1 + 1)) with (S (Z.to_nat (rfind sep p + 1)))
      by lia.
    done.
  - assert (rfind sep p = (-1)%Z) as Hr' by (pose proof (rfind_bounds sep p); lia).
    rewrite Hr' in IH. simpl in IH.
    destruct (Ascii.eqb a sep) eqn:Ha; simpl; [done|]. by rewrite Ha.
Qed.

Lemma split_tail p : (split p).2 = basename p.
Proof. reflexivity. Qed.

Lemma rfind_endswith x :
  endswith_sep x = true → (rfind sep x + 1)%Z = Z.of_nat (String.length x).
Proof.
  induction x as [|a x IH]; [done|].
  destruct x as [|b x].
  - simpl. intros ->. done.
  - intros Hend. change (endswith_sep (String b x) = true) in Hend.
    specialize (IH Hend). change (rfind sep (String a (String b x)))
      with (let r := rfind sep (String b x) in
            if (0 <=? r)%Z then (r + 1)%Z
            else if Ascii.eqb a sep then 0%Z else (-1)%Z).
    cbv zeta. destruct (Z.leb_spec 0 (rfind sep (String b x))).
    + change (String.length (String a (String b x)))
        with (S (String.length (String b x))). lia.
    + simpl String.length in *. lia.
Qed.

Lemma suffix_all x : suffix (String.length x) x = "".
Proof. induction x; simpl; done. Qed.

Lemma basename_dir x :
  Py.is_empty x || endswith_sep x = true → basename x = "".
Proof.
  destruct x as [|a x]; [done|]. intros Hend.
  change (endswith_sep (String a x) = true) in Hend.
  unfold basename. rewrite (rfind_endswith _ Hend), Nat2Z.id.
  apply suffix_all.
Qed.

Lemma endswith_sep_snoc x : endswith_sep (x +:+ String sep "") = true.
Proof.
  induction x as [|a x IH]; [done|]. rewrite app_cons_s.
  destruct x as [|b x]; [done|]. rewrite app_cons_s in *.
  exact IH.
Qed.

Lemma startswith_sep_absent n : has_char sep n = false → startswith_sep n = false.
Proof. destruct n as [|a n]; simpl; [done|]. by intros [? ?]%orb_false_elim. Qed.

(** The last component of [join a n +:+ ext] is [n +:+ ext]. *)
Lemma basename_join a n ext :
  has_char sep n = false → has_char sep ext = false →
  basename (join a n +:+ ext) = n +:+ ext.
Proof.
  intros Hn Hext. unfold join. rewrite (startswith_sep_absent n Hn).
  assert (has_char sep (n +:+ ext) = false) as Hne
    by (by rewrite has_char_app, Hn, Hext).
  destruct (Py.is_empty a || endswith_sep a) eqn:Hdir.
  - rewrite app_assoc_s, (basename_app _ _ Hne), (basename_dir _ Hdir). done.
  - replace ((a +:+ String sep n) +:+ ext)
      with ((a +:+ String sep "") +:+ (n +:+ ext))
      by (by rewrite !app_assoc_s).
    rewrite (basename_app _ _ Hne), basename_dir; [done|].
    by rewrite endswith_sep_snoc, orb_true_r.
Qed.

Lemma string_of_uint_no_sep d :
  has_char sep (NilEmpty.string_of_uint d) = false.
Proof. induction d; simpl; done. Qed.

Lemma str_int_no_sep z : has_char sep (str_int z) = false.
Proof.
  unfold str_int, NilZero.string_of_int, NilZero.string_of_uint.
  destruct (Z.to_int z) as [d|d]; destruct d; simpl;
    try done; apply string_of_uint_no_sep.
Qed.

Lemma model_base_name_no_sep args : has_char sep (model_base_name args) = false.
Proof.
  unfold model_base_name. rewrite split_tail.
  by rewrite !has_char_app, !basename_no_sep.
Qed.

Lemma output_file_name_no_sep repr_float args :
  (∀ q, has_char sep (repr_float q) = false) →
  has_char sep (output_file_name repr_float args) = false.
Proof.
  intros Hrepr. unfold output_file_name.
  by rewrite !has_char_app, model_base_name_no_sep, Hrepr, str_int_no_sep.
Qed.

Lemma output_file_basename repr_float args ext :
  (∀ q, has_char sep (repr_float q) = false) → has_char sep ext = false →
  basename (output_file_basepath repr_float args +:+ ext)
  = output_file_name repr_float args +:+ ext.
Proof.
  intros Hrepr Hext. unfold output_file_basepath.
  apply basename_join; [by apply output_file_name_no_sep|done].
Qed.
End paths.

(** ** [write_outputs] *)

(** Claim C4, as the code has it.  Whatever the sanity check says, the
    text file holds every sentence followed by a line feed and the JSON
    file holds [json.dumps([sentence])] followed by a line feed, both in
    the order of the input.  Read back, the JSON file has one line per
    sentence and each line is the JSON array of that one string; the text
    file has one line per sentence when no sentence holds a line break.
    The last component of both paths is the model base name, the top-p
    value and the step count put together, so that configurations which
    agree on these write files of the same name, and to the same path
    when they also agree on the output directory. *)
Theorem write_outputs_one_line_per_sentence :
  ∀ (repr_float : Q → string) (args : Args) (sentences : list string)
    (w : world),
    (files (write_outputs repr_float args sentences w).1
       !! (output_file_basepath repr_float args +:+ ".txt")
     = Some (text_of sentences)
     ∧ files (write_outputs repr_float args sentences w).1
         !! (output_file_basepath repr_float args +:+ ".json")
       = Some (json_of sentences))
    ∧ (Forall no_linebreak sentences →
       readlines (text_of sentences) = (λ s, s +:+ newline) <$> sentences)
    ∧ readlines (json_of sentences)
      = (λ s, Json.dumps_singleton s +:+ newline) <$> sentences
    ∧ (∀ s, Json.loads_singleton (Json.dumps_singleton s) = Some [s])
    ∧ ((∀ q, has_char PosixPath.sep (repr_float q) = false) →
       PosixPath.basename (output_file_basepath repr_float args +:+ ".txt")
       = output_file_name repr_float args +:+ ".txt"
       ∧ PosixPath.basename (output_file_basepath repr_float args +:+ ".json")
         = output_file_name repr_float args +:+ ".json")
    ∧ (∀ args',
         model_name_or_path args' = model_name_or_path args →
         top_p args' = top_p args →
         diffusion_steps args' = diffusion_steps args →
         output_file_name repr_float args' = output_file_name repr_float args
         ∧ (out_dir args' = out_dir args →
            output_file_basepath repr_float args'
            = output_file_basepath repr_float args)).
Proof.
  intros repr_float args sentences w.
  split; [apply write_outputs_files|].
  split; [apply readlines_text_of|].
  split; [apply readlines_json_of|].
  split; [apply loads_dumps_singleton|].
  split.
  - intros Hrepr. split; by apply output_file_basename.
  - intros args' Hm Hp Hd.
    assert (output_file_name repr_float args' = output_file_name repr_float args)
      as Hname.
    { unfold output_file_name, model_base_name. by rewrite Hm, Hp, Hd. }
    split; [done|]. intros Ho. unfold output_file_basepath. by rewrite Hname, Ho.
Qed.

(** C4 on two sentences and on the paths of two configurations. *)
Lemma write_outputs_one_line_per_sentence_witness :
  readlines (text_of ["the cat sit"; "a b"])
    = ["the cat sit" +:+ newline; "a b" +:+ newline]
  ∧ PosixPath.basename (output_file_basepath repr_nine_tenths sit_args +:+ ".txt")
    = "emb128.model_5000.pt.samples_0.9.steps=2000.txt"
  ∧ output_file_basepath repr_nine_tenths other_args
    = "/tmp/samples/run7.ema.pt.samples_0.9.steps=50".
Proof.
  pose proof (write_outputs_one_line_per_sentence
                repr_nine_tenths sit_args ["the cat sit"; "a b"] empty_world)
    as (_ & Htext & _ & _ & Hname & _).
  split; [|split].
  - apply Htext. repeat constructor.
  - apply Hname. intros q. reflexivity.
  - reflexivity.
Defined.

(** C4 as stated fails for the one sentence made of [a], a line feed and
    [b]: the text file written for it has two lines. *)
Lemma text_file_lines_counterexample :
  files (write_outputs repr_nine_tenths sit_args [two_line_sentence] empty_world).1
    !! "out/emb128.model_5000.pt.samples_0.9.steps=2000.txt"
  = Some ("a" +:+ newline +:+ "b" +:+ newline)
  ∧ readlines ("a" +:+ newline +:+ "b" +:+ newline)
    = ["a" +:+ newline; "b" +:+ newline]
  ∧ length (readlines ("a" +:+ newline +:+ "b" +:+ newline))
    ≠ length [two_line_sentence].
Proof.
  split; [vm_compute; reflexivity|]. split; [reflexivity|].
  vm_compute. discriminate.
Qed.

(** Claim C5, as the code has it.  For every configuration, the only
    file that [write_outputs] opens for reading is the one at the fixed
    path [generation_outputs_emb128/two_steps_sanity_check.txt], and its
    outcome is that of checking the sentences against the lines of that
    file, or [FileNotFoundError] when there is none. *)
Theorem sanity_reference_read_from_fixed_path :
  ∀ (repr_float : Q → string) (args : Args) (sentences : list string)
    (w : world),
    reads (write_outputs repr_float args sentences w).1
    = (reads w ++ [sanity_check_path])%list
    ∧ (write_outputs repr_float args sentences w).2
      = match files (write_outputs repr_float args sentences w).1
                !! sanity_check_path with
        | Some content => sanity_check (readlines content) sentences
        | None => Raise (FileNotFoundError sanity_check_path)
        end.
Proof.
  intros repr_float args sentences w.
  split; [apply write_outputs_reads | apply write_outputs_outcome].
Qed.

(** C5 as stated fails: two configurations that differ in every path
    read the same fixed file, and no function of the configuration that
    takes two different values gives the path that is read. *)
Lemma sanity_reference_path_not_configurable :
  reads (write_outputs repr_nine_tenths sit_args ["the cat sat"] reference_world).1
  = [sanity_check_path]
  ∧ reads (write_outputs repr_nine_tenths other_args ["the cat sat"] reference_world).1
    = [sanity_check_path]
  ∧ ¬ ∃ (repr_float : Q → string) (path_of : Args → string),
        (∃ a b, path_of a ≠ path_of b) ∧
        ∀ args sentences w,
          reads (write_outputs repr_float args sentences w).1
          = (reads w ++ [path_of args])%list.
Proof.
  split; [vm_compute; reflexivity|]. split; [vm_compute; reflexivity|].
  intros (repr_float & path_of & (a & b & Hab) & Hreads).
  apply Hab.
  pose proof (Hreads a [] empty_world) as Ha.
  pose proof (Hreads b [] empty_world) as Hb.
  rewrite write_outputs_reads in Ha, Hb. simpl in Ha, Hb. congruence.
Qed.

(** Claim C10.  Whatever [write_outputs] ends with, in particular a
    failed assertion of the sanity check, the state it leaves holds both
    output files with their complete contents. *)
Theorem outputs_persist_whatever_the_check_says :
  ∀ (repr_float : Q → string) (args : Args) (sentences : list string)
    (w w' : world) (outcome : result exn unit),
    write_outputs repr_float args sentences w = (w', outcome) →
    files w' !! (output_file_basepath repr_float args +:+ ".txt")
      = Some (text_of sentences)
    ∧ files w' !! (output_file_basepath repr_float args +:+ ".json")
      = Some (json_of sentences).
Proof.
  intros repr_float args sentences w w' outcome Hrun.
  pose proof (write_outputs_files repr_float args sentences w) as Hfiles.
  by rewrite Hrun in Hfiles.
Qed.

(** C10 on a run whose sanity check fails: the assertion error is
    raised and both files are there. *)
Lemma outputs_persist_whatever_the_check_says_witness :
  (write_outputs repr_nine_tenths sit_args ["the cat sit"] reference_world).2
  = Raise (AssertionError
             (mismatch 0 ("the cat sat" +:+ newline) "the cat sit" (1 # 2)))
  ∧ files (write_outputs repr_nine_tenths sit_args ["the cat sit"] reference_world).1
      !! (output_file_basepath repr_nine_tenths sit_args +:+ ".txt")
    = Some (text_of ["the cat sit"])
  ∧ files (write_outputs repr_nine_tenths sit_args ["the cat sit"] reference_world).1
      !! (output_file_basepath repr_nine_tenths sit_args +:+ ".json")
    = Some (json_of ["the cat sit"]).
Proof.
  split; [vm_compute; reflexivity|].
  apply (outputs_persist_whatever_the_check_says
           repr_nine_tenths sit_args ["the cat sit"] reference_world
           (write_outputs repr_nine_tenths sit_args ["the cat sit"] reference_world).1
           (write_outputs repr_nine_tenths sit_args ["the cat sit"] reference_world).2).
  apply surjective_pairing.
Defined.

(** * Further properties *)

(** ** More on the sampling loop *)

Section sampling_more.
Context {row : Type}.
Variable world_size : nat.
Variable sample_fn : nat → nat → list row.
Variable args : Args.

Local Abbreviation reaches := (loop_reaches world_size sample_fn args).
Local Abbreviation body := (loop_body world_size sample_fn).
Local Abbreviation loop := (sampling_loop world_size sample_fn).

(** A state other than the first one was entered through a successful
    test. *)
Lemma reaches_previous_guard st :
  reaches st →
  rounds st = 0 ∨
  (Z.of_nat ((rounds st - 1) * world_size) * batch_size args < num_samples args)%Z.
Proof.
  induction 1 as [|st Hst _ Hguard]; [by left|]. right.
  destruct (reaches_invariant _ _ _ _ Hst) as [Hlen _].
  unfold loop_guard in Hguard. apply Z.ltb_lt in Hguard.
  simpl. rewrite Nat.sub_0_r, <- Hlen. done.
Qed.

(** Slot [round * world_size + rank] of [all_samples] holds the batch of
    that round and rank. *)
Lemma reaches_lookup st round rank :
  reaches st → round < rounds st → rank < world_size →
  all_samples st !! (round * world_size + rank) = Some (sample_fn round rank).
Proof.
  induction 1 as [|st Hst IH _]; simpl; [lia|]. intros Hround Hrank.
  destruct (reaches_invariant _ _ _ _ Hst) as [Hlen _].
  destruct (decide (round < rounds st)) as [Hlt|Hge].
  - rewrite lookup_app_l by nia. by apply IH.
  - assert (round = rounds st) as -> by lia.
    rewrite lookup_app_r by lia.
    replace (rounds st * world_size + rank - length (all_samples st)) with rank
      by lia.
    unfold all_gather. rewrite list_lookup_fmap, lookup_seq_lt by done. done.
Qed.

Lemma lookup_concat_shaped (b : nat) (arrays : list (list row)) i j a :
  Forall (λ a, length a = b) arrays →
  arrays !! i = Some a → j < b →
  concat arrays !! (i * b + j) = a !! j.
Proof.
  intros Hall. revert i. induction Hall as [|a0 arrays Ha0 _ IH]; intros i Hi Hj.
  - by rewrite lookup_nil in Hi.
  - destruct i as [|i]; simpl in *.
    + injection Hi as ->. by rewrite lookup_app_l by lia.
    + rewrite lookup_app_r by lia.
      replace (b + i * b + j - length a0) with (i * b + j) by lia.
      by apply IH.
Qed.

Lemma reaches_shaped_nat (b : nat) st :
  (∀ round rank, length (sample_fn round rank) = b) →
  reaches st → Forall (λ a, length a = b) (all_samples st).
Proof.
  intros Hshape. induction 1 as [|st _ IH _]; simpl; [constructor|].
  apply Forall_app. split; [done|]. unfold all_gather.
  apply Forall_fmap, Forall_forall. intros rank _. apply Hshape.
Qed.

Lemma sampling_loop_diverges fuel st :
  batch_size args = 0%Z → (1 ≤ num_samples args)%Z → loop fuel args st = None.
Proof.
  intros Hb Hn. revert st. induction fuel as [|fuel IH]; intros st; simpl;
    unfold loop_guard; rewrite Hb;
    (destruct (Z.ltb_spec (Z.of_nat (length (all_samples st)) * 0) (num_samples args));
     [|lia]); [done|apply IH].
Qed.
End sampling_more.

(** X1.  When the sampling loop ends it has run the least number of
    rounds whose count [rounds * world_size * batch_size] reaches
    [num_samples]: the count is at least [num_samples], and one round
    less would have been short of it; [all_samples] then holds
    [rounds * world_size] batches.  With a positive batch size and at
    least one worker, that number of rounds is [num_samples] divided by
    [world_size * batch_size], rounded up. *)
Theorem sampling_loop_runs_least_rounds :
  ∀ {row : Type} (world_size : nat) (sample_fn : nat → nat → list row)
    (args : Args) (fuel : nat) (st : loop_state),
    sampling_loop world_size sample_fn fuel args loop_init = Some st →
    (num_samples args
       ≤ Z.of_nat (rounds st * world_size) * batch_size args)%Z
    ∧ (rounds st = 0 ∨
       (Z.of_nat ((rounds st - 1) * world_size) * batch_size args
          < num_samples args)%Z)
    ∧ length (all_samples st) = rounds st * world_size
    ∧ ((1 ≤ batch_size args)%Z → (1 ≤ world_size)%nat →
       (0 ≤ num_samples args)%Z →
       Z.of_nat (rounds st)
       = ((num_samples args + Z.of_nat world_size * batch_size args - 1)
            / (Z.of_nat world_size * batch_size args))%Z).
Proof.
  intros row world_size sample_fn args fuel st Hrun.
  destruct (sampling_loop_reaches _ _ _ _ _ _ (reaches_init _ _ _) Hrun)
    as [Hreach Hguard].
  destruct (reaches_invariant _ _ _ _ Hreach) as [Hlen _].
  pose proof (reaches_previous_guard _ _ _ _ Hreach) as Hprev.
  unfold loop_guard in Hguard. apply Z.ltb_ge in Hguard. rewrite Hlen in Hguard.
  split; [done|]. split; [done|]. split; [done|].
  intros Hb Hw Hn.
  set (m := (Z.of_nat world_size * batch_size args)%Z) in *.
  assert (0 < m)%Z as Hm by (unfold m; nia).
  assert (Z.of_nat (rounds st * world_size) * batch_size args
          = Z.of_nat (rounds st) * m)%Z as Heq by (unfold m; nia).
  rewrite Heq in Hguard.
  apply (Z.div_unique_pos _ _ _
           (num_samples args + m - 1 - Z.of_nat (rounds st) * m)%Z); [|lia].
  destruct Hprev as [Hzero|Hprev].
  - rewrite Hzero in *. simpl in *. lia.
  - assert (Z.of_nat ((rounds st - 1) * world_size) * batch_size args
            = (Z.of_nat (rounds st) - 1) * m)%Z as Heq'.
    { unfold m. destruct (rounds st) as [|r]; [simpl in *; lia|].
      replace (S r - 1) with r by lia. nia. }
    rewrite Heq' in Hprev. lia.
Qed.

Lemma sampling_loop_runs_least_rounds_witness :
  ∃ st : loop_state,
    sampling_loop 2 numbered_batch 7 triple_args loop_init = Some st ∧
    rounds st = 2 ∧
    Z.of_nat (rounds st) = ((7 + Z.of_nat 2 * 3 - 1) / (Z.of_nat 2 * 3))%Z.
Proof.
  eexists. split; [reflexivity|]. split; [reflexivity|].
  apply (sampling_loop_runs_least_rounds 2 numbered_batch triple_args 7).
  - reflexivity.
  - vm_compute. discriminate.
  - lia.
  - vm_compute. discriminate.
Defined.

(** X2.  When no sample is requested ([num_samples <= 0]) the loop body
    is never run, and [np.concatenate] of the empty list raises
    [ValueError]. *)
Theorem no_samples_requested_raises_ValueError :
  ∀ {row : Type} (world_size : nat) (sample_fn : nat → nat → list row)
    (args : Args) (fuel : nat),
    (num_samples args ≤ 0)%Z →
    sampling_loop world_size sample_fn fuel args loop_init = Some loop_init
    ∧ collect world_size sample_fn fuel args = Some (Raise ValueError).
Proof.
  intros row world_size sample_fn args fuel Hn.
  assert (sampling_loop world_size sample_fn fuel args loop_init = Some loop_init)
    as Hrun.
  { destruct fuel; simpl; unfold loop_guard; simpl;
      change (Z.of_nat 0 * batch_size args)%Z with 0%Z;
      (destruct (Z.ltb_spec 0 (num_samples args)); [lia|done]). }
  split; [done|]. unfold collect. by rewrite Hrun.
Qed.

Lemma no_samples_requested_raises_ValueError_witness :
  collect 2 numbered_batch 5 none_args = Some (Raise ValueError).
Proof.
  apply (no_samples_requested_raises_ValueError 2 numbered_batch none_args 5).
  vm_compute. discriminate.
Defined.

(** X3.  With a batch size of 0 and at least one requested sample the
    loop test never fails: no amount of fuel ends the loop. *)
Theorem empty_batches_never_reach_the_target :
  ∀ {row : Type} (world_size : nat) (sample_fn : nat → nat → list row)
    (args : Args) (fuel : nat),
    batch_size args = 0%Z → (1 ≤ num_samples args)%Z →
    sampling_loop world_size sample_fn fuel args loop_init = None
    ∧ collect world_size sample_fn fuel args = None.
Proof.
  intros row world_size sample_fn args fuel Hb Hn.
  pose proof (sampling_loop_diverges world_size sample_fn args fuel loop_init Hb Hn)
    as Hrun.
  split; [done|]. unfold collect. by rewrite Hrun.
Qed.

Lemma empty_batches_never_reach_the_target_witness :
  collect 2 (λ _ _, @nil nat) 1000 empty_batch_args = None.
Proof.
  apply (empty_batches_never_reach_the_target 2 (λ _ _, @nil nat)
           empty_batch_args 1000).
  - reflexivity.
  - vm_compute. discriminate.
Defined.

(** X4.  The gathered corpus is ordered by round, then by rank, then by
    position in the batch: with batches of [b] rows, row [j] of the batch
    that worker [rank] drew in round [round] sits at index
    [(round * world_size + rank) * b + j]. *)
Theorem gathered_corpus_is_in_round_then_rank_order :
  ∀ {row : Type} (world_size : nat) (sample_fn : nat → nat → list row)
    (args : Args) (b : nat) (st : loop_state) (round rank j : nat),
    (∀ round rank, length (sample_fn round rank) = b) →
    loop_reaches world_size sample_fn args st →
    round < rounds st → rank < world_size → j < b →
    concat (all_samples st) !! ((round * world_size + rank) * b + j)
    = sample_fn round rank !! j.
Proof.
  intros row world_size sample_fn args b st round rank j Hshape Hreach Hr Hk Hj.
  apply lookup_concat_shaped; [|by apply (reaches_lookup _ _ args)|done].
  by apply (reaches_shaped_nat world_size sample_fn args).
Qed.

Lemma gathered_corpus_is_in_round_then_rank_order_witness :
  concat (all_samples (loop_body 2 numbered_batch
                         (loop_body 2 numbered_batch loop_init)))
    !! ((1 * 2 + 0) * 3 + 2)
  = numbered_batch 1 0 !! 2.
Proof.
  apply (gathered_corpus_is_in_round_then_rank_order
           2 numbered_batch triple_args 3).
  - intros round rank. reflexivity.
  - apply reaches_body; [apply reaches_body; [apply reaches_init|]|]; reflexivity.
  - simpl. lia.
  - lia.
  - lia.
Defined.

(** ** Words, [split] and [join] *)

Lemma has_space_app (a b : string) :
  has_space (a +:+ b) = has_space a || has_space b.
Proof.
  induction a as [|x a IH]; string_simpl; [done|]. rewrite IH. by rewrite orb_assoc.
Qed.

Lemma is_empty_app_cons (a : string) c b : is_empty (a +:+ String c b) = false.
Proof. by destruct a. Qed.

(** Reading a run of characters that are not white space extends the
    token being read. *)
Lemma split_from_word tok w rest :
  has_space w = false → split_from tok (w +:+ rest) = split_from (tok +:+ w) rest.
Proof.
  revert tok. induction w as [|c w IH]; intros tok; string_simpl.
  - by rewrite app_nil_r_s.
  - intros [Hc Hw]%orb_false_elim. rewrite Hc, (IH _ Hw).
    by rewrite app_assoc_s.
Qed.

Lemma split_join_words (words : list string) :
  Forall is_word words → split (join " " words) = words.
Proof.
  unfold split, join. induction 1 as [|w words [Hne Hw] Hall IH]; [done|].
  destruct words as [|w' words].
  - simpl. rewrite <- (app_nil_r_s w) at 1.
    rewrite (split_from_word "" w "" Hw). string_simpl. by destruct w.
  - change (String.concat " " (w :: w' :: words))
      with (w +:+ " " +:+ String.concat " " (w' :: words)).
    rewrite (split_from_word "" w _ Hw), app_nil_l_s, app_cons_s, app_nil_l_s.
    change (split_from w (String " " (String.concat " " (w' :: words))))
      with (if is_empty w then split_from "" (String.concat " " (w' :: words))
            else w :: split_from "" (String.concat " " (w' :: words))).
    rewrite IH. by destruct w.
Qed.

(** White space at either end does not change the tokens. *)
Lemma split_from_rstrip tok s : split_from tok (rstrip s) = split_from tok s.
Proof.
  revert tok. induction s as [|c s IH]; intros tok; [done|]. simpl.
  destruct (isspace c) eqn:Hc.
  - destruct (rstrip s) as [|d r] eqn:Hr; simpl.
    + rewrite <- !IH. simpl. by destruct (is_empty tok).
    + rewrite Hc. by rewrite <- !IH.
  - rewrite andb_false_r. simpl. rewrite Hc. apply IH.
Qed.

Lemma split_lstrip s : split (lstrip s) = split s.
Proof.
  unfold split. induction s as [|c s IH]; [done|]. simpl.
  destruct (isspace c) eqn:Hc; [done|]. simpl. by rewrite Hc.
Qed.

Lemma split_strip s : split (strip s) = split s.
Proof. unfold strip, split. by rewrite split_from_rstrip, split_lstrip. Qed.

Lemma split_from_newline tok s :
  split_from tok (s +:+ newline) = split_from tok s.
Proof.
  revert tok. induction s as [|c s IH]; intros tok; string_simpl.
  - by destruct (is_empty tok).
  - by rewrite !IH.
Qed.

Lemma toks_line s : toks (strip (s +:+ newline)) = toks s.
Proof. unfold toks. rewrite split_strip. unfold split. by rewrite split_from_newline. Qed.

(** ** More on decoding *)

Section stops_at_first.
Context {A B : Type} (f : A → result exn B).

Lemma for_each_app_Raise pre x post e :
  Forall (λ y, ∃ b, f y = Ok b) pre → f x = Raise e →
  for_each f (pre ++ x :: post)%list = Raise e.
Proof.
  intros Hpre Hx. induction Hpre as [|y pre [b Hy] _ IH]; simpl.
  - by rewrite Hx.
  - by rewrite Hy, IH.
Qed.

Lemma for_each_total l :
  Forall (λ y, ∃ b, f y = Ok b) l → ∃ bs, for_each f l = Ok bs.
Proof.
  induction 1 as [|y l [b Hy] _ [bs IH]]; simpl; [by eexists|].
  rewrite Hy, IH. simpl. by eexists.
Qed.
End stops_at_first.

Lemma decode_sentence_mapped tokenizer seq :
  Forall (λ x, is_Some (tokenizer !! x)) seq →
  ∃ sentence, decode_sentence tokenizer seq = Ok sentence.
Proof.
  intros Hall. unfold decode_sentence.
  destruct (for_each_total (getitem tokenizer) seq) as [words Hwords].
  - eapply Forall_impl; [done|]. intros x [w Hw]. exists w.
    by apply getitem_Ok.
  - rewrite Hwords. simpl. by eexists.
Qed.

(** X5.  Decoding reports the first index without entry in reading
    order: when every sequence before one decodes and, in that one, every
    index before [x] has an entry and [x] has none, the error is
    [KeyError x], whatever follows. *)
Theorem decode_reports_first_missing_index :
  ∀ (tokenizer : gmap Z string) (before after : list (list Z))
    (front back : list Z) (x : Z),
    Forall (Forall (λ y, is_Some (tokenizer !! y))) before →
    Forall (λ y, is_Some (tokenizer !! y)) front →
    tokenizer !! x = None →
    decode_sentences tokenizer (before ++ (front ++ x :: back) :: after)%list
    = Raise (KeyError x).
Proof.
  intros tokenizer before after front back x Hbefore Hfront Hx.
  unfold decode_sentences. apply for_each_app_Raise.
  - eapply Forall_impl; [done|]. intros seq Hseq. by apply decode_sentence_mapped.
  - unfold decode_sentence. rewrite (for_each_app_Raise _ _ _ _ (KeyError x)); [done| |].
    + eapply Forall_impl; [done|]. intros y [w Hw]. exists w. by apply getitem_Ok.
    + unfold getitem. by rewrite Hx.
Qed.

Lemma decode_reports_first_missing_index_witness :
  decode_sentences small_vocab
    ([[0; 1]; [1]] ++ ([1; 0] ++ 7 :: [0; 9]) :: [[8]])%Z%list
  = Raise (KeyError 7).
Proof.
  apply (decode_reports_first_missing_index small_vocab).
  - repeat constructor; by eexists.
  - repeat constructor; by eexists.
  - reflexivity.
Defined.

(** X6.  When every word of the table is not empty and holds no white
    space, splitting a decoded sentence gives back the words of its
    indices, one per position, so the token set that the sanity check
    builds from it is the set of those words. *)
Theorem decoded_sentence_splits_into_its_words :
  ∀ (tokenizer : gmap Z string) (seq : list Z) (sentence : string),
    (∀ x w, tokenizer !! x = Some w → is_word w) →
    decode_sentence tokenizer seq = Ok sentence →
    (Forall2 (λ x w, tokenizer !! x = Some w) seq (split sentence)
     ∧ length (split sentence) = length seq)
    ∧ (∀ w, w ∈ toks sentence ↔ ∃ x, x ∈ seq ∧ tokenizer !! x = Some w).
Proof.
  intros tokenizer seq sentence Hwords Hdec.
  apply decode_sentence_Ok in Hdec as (words & Hall & ->).
  assert (Forall is_word words) as Hw.
  { apply Forall_forall. intros w Hin.
    apply list_elem_of_lookup in Hin as [i Hi].
    destruct (Forall2_lookup_r _ _ _ _ _ Hall Hi) as (x & _ & Hx).
    by eapply Hwords. }
  rewrite (split_join_words words Hw).
  split; [split; [done|symmetry; by eapply Forall2_length]|].
  intros w. unfold toks. rewrite (split_join_words words Hw), elem_of_list_to_set.
  split.
  - intros Hin. apply list_elem_of_lookup in Hin as [i Hi].
    destruct (Forall2_lookup_r _ _ _ _ _ Hall Hi) as (x & Hx & Hxw).
    exists x. split; [|done]. apply list_elem_of_lookup. by exists i.
  - intros (x & Hin & Hxw). apply list_elem_of_lookup in Hin as [i Hi].
    destruct (Forall2_lookup_l _ _ _ _ _ Hall Hi) as (w' & Hw' & Hxw').
    assert (w' = w) as -> by congruence.
    apply list_elem_of_lookup. by exists i.
Qed.

Lemma decoded_sentence_splits_into_its_words_witness :
  split "cat the cat" = ["cat"; "the"; "cat"] ∧
  Forall2 (λ x w, small_vocab !! x = Some w) [1; 0; 1]%Z (split "cat the cat").
Proof.
  split; [reflexivity|].
  apply (decoded_sentence_splits_into_its_words small_vocab [1; 0; 1]%Z "cat the cat").
  - intros x w Hx. unfold small_vocab in Hx.
    apply lookup_insert_Some in Hx as [[_ <-]|[_ Hx]]; [by split|].
    apply lookup_singleton_Some in Hx as [_ <-]. by split.
  - reflexivity.
Defined.

(** ** More on the sanity check *)

(** The test [jaccard > 0.9] on the quotient of two lengths. *)
Lemma truediv_gt (a b : nat) :
  match truediv a b with
  | Some q => gt q (9 # 10) = true ↔ 9 * b < 10 * a
  | None => b = 0
  end.
Proof.
  unfold truediv. destruct (Nat.eqb_spec b 0) as [->|Hb]; [done|].
  rewrite gt_true, Qred_correct. unfold Qlt. simpl.
  rewrite <- (positive_nat_Z (Pos.of_nat b)), Nat2Pos.id by done. lia.
Qed.

Lemma toks_empty s : toks s = ∅ ↔ split s = [].
Proof.
  unfold toks. destruct (split s) as [|w ws]; [done|].
  split; [|done]. intros H. exfalso.
  assert (w ∈ (∅ : gset string)) as Hin.
  { rewrite <- H. apply elem_of_list_to_set. by left. }
  by apply not_elem_of_empty in Hin.
Qed.

Section sanity_check_more.
Implicit Types (lines sentences : list string) (i j : nat).

Lemma compare_line_threshold i line sentences s :
  sentences !! i = Some s →
  compare_line i line sentences = Ok tt ↔
  9 * size (toks (strip line) ∪ toks s) < 10 * size (toks (strip line) ∩ toks s).
Proof.
  intros Hs. unfold compare_line. rewrite Hs.
  pose proof (truediv_gt (size (toks (strip line) ∩ toks s))
                         (size (toks (strip line) ∪ toks s))) as Hdiv.
  destruct (truediv _ _) as [q|].
  - rewrite <- Hdiv. by destruct (gt q (9 # 10)).
  - split; [done|].
    assert (size (toks (strip line) ∩ toks s)
              ≤ size (toks (strip line) ∪ toks s))%nat as Hle; [|lia].
    apply subseteq_size. etrans; [apply intersection_subseteq_l|].
    apply union_subseteq_l.
Qed.

Lemma sanity_check_first_raise lines sentences i line e :
  lines !! i = Some line → compare_line i line sentences = Raise e →
  (∀ j l, j < i → lines !! j = Some l → compare_line j l sentences = Ok tt) →
  sanity_check lines sentences = Raise e.
Proof.
  intros Hline He Hbefore. unfold sanity_check.
  destruct (compare_from_cases 0 lines sentences)
    as [[_ Hall]|(k & l & e' & Hk & He' & -> & Hfirst)].
  - specialize (Hall i line Hline). simpl in Hall. congruence.
  - simpl in He', Hfirst.
    destruct (Nat.lt_trichotomy k i) as [Hlt|[->|Hgt]].
    + rewrite (Hbefore k l Hlt Hk) in He'. done.
    + congruence.
    + specialize (Hfirst i line Hgt Hline). congruence.
Qed.

Lemma compare_from_agree i0 lines s1 s2 :
  (∀ i, (i0 ≤ i < i0 + length lines)%nat → s1 !! i = s2 !! i) →
  compare_from i0 lines s1 = compare_from i0 lines s2.
Proof.
  revert i0. induction lines as [|line lines IH]; intros i0 Hagree; [done|].
  simpl. assert (compare_line i0 line s1 = compare_line i0 line s2) as ->.
  { unfold compare_line. rewrite (Hagree i0) by (simpl; lia). done. }
  destruct (compare_line i0 line s2); simpl; [|done].
  apply IH. intros i Hi. apply Hagree. simpl. lia.
Qed.
End sanity_check_more.

(** X7.  A reference line and the generated sentence of its index pass
    the sanity check exactly when nine times the number of distinct tokens
    of both is below ten times the number of distinct tokens they share;
    white space around the reference line plays no role. *)
Theorem sanity_check_line_passes_iff_nine_tenths_shared :
  ∀ (i : nat) (line : string) (sentences : list string) (s : string),
    sentences !! i = Some s →
    compare_line i line sentences = Ok tt ↔
    9 * size (toks line ∪ toks s) < 10 * size (toks line ∩ toks s).
Proof.
  intros i line sentences s Hs.
  rewrite (compare_line_threshold i line sentences s Hs).
  unfold toks. by rewrite split_strip.
Qed.

Lemma sanity_check_line_passes_iff_nine_tenths_shared_witness :
  compare_line 0 "a b c d e f g h i j k" ["k j i h g f e d c b"] = Ok tt ↔
  9 * size (toks "a b c d e f g h i j k" ∪ toks "k j i h g f e d c b")
  < 10 * size (toks "a b c d e f g h i j k" ∩ toks "k j i h g f e d c b").
Proof.
  apply (sanity_check_line_passes_iff_nine_tenths_shared
           0 "a b c d e f g h i j k" ["k j i h g f e d c b"] "k j i h g f e d c b").
  reflexivity.
Defined.

(** X8.  When a reference line and its generated sentence hold at most
    ten distinct tokens together, they pass exactly when their token sets
    are equal and not empty: one differing token fails the run. *)
Theorem short_lines_pass_only_with_equal_token_sets :
  ∀ (i : nat) (line : string) (sentences : list string) (s : string),
    sentences !! i = Some s →
    (size (toks line ∪ toks s) ≤ 10)%nat →
    compare_line i line sentences = Ok tt ↔ toks line = toks s ∧ split s ≠ [].
Proof.
  intros i line sentences s Hs Hsmall.
  rewrite (sanity_check_line_passes_iff_nine_tenths_shared i line sentences s Hs).
  rewrite <- toks_empty.
  assert (toks line ∩ toks s ⊆ toks line ∪ toks s) as Hsub.
  { etrans; [apply intersection_subseteq_l|]. apply union_subseteq_l. }
  pose proof (subseteq_size _ _ Hsub) as Hle.
  split.
  - intros Hlt.
    assert (toks line ∩ toks s = toks line ∪ toks s) as Heq;
      [apply set_subseteq_size_eq; [done|lia]|].
    assert (toks line = toks s) as Hsame.
    { apply set_eq. intros w. split; intros Hw.
      - assert (w ∈ toks line ∩ toks s) as Hin
          by (rewrite Heq; by apply elem_of_union_l).
        by apply elem_of_intersection in Hin as [_ ?].
      - assert (w ∈ toks line ∩ toks s) as Hin
          by (rewrite Heq; by apply elem_of_union_r).
        by apply elem_of_intersection in Hin as [? _]. }
    split; [done|]. intros Hempty. rewrite Hsame, Hempty in Hlt.
    rewrite union_idemp_L, intersection_idemp_L, size_empty in Hlt. lia.
  - intros [Hsame Hne]. rewrite Hsame, union_idemp_L, intersection_idemp_L.
    assert (size (toks s) ≠ 0); [|lia].
    intros Hzero. apply Hne. by apply leibniz_equiv, size_empty_iff.
Qed.

Lemma short_lines_pass_only_with_equal_token_sets_witness :
  compare_line 0 "the cat  sat" ["sat the cat cat"] = Ok tt ↔
  toks "the cat  sat" = toks "sat the cat cat" ∧ split "sat the cat cat" ≠ [].
Proof.
  apply (short_lines_pass_only_with_equal_token_sets
           0 "the cat  sat" ["sat the cat cat"] "sat the cat cat").
  - reflexivity.
  - vm_compute. lia.
Defined.

(** X9.  When the reference has more lines than there are generated
    sentences and every pair that exists passes, the sanity check raises
    [IndexError]. *)
Theorem reference_longer_than_output_raises_IndexError :
  ∀ (lines sentences : list string),
    length sentences < length lines →
    (∀ j l, j < length sentences → lines !! j = Some l →
       compare_line j l sentences = Ok tt) →
    sanity_check lines sentences = Raise IndexError.
Proof.
  intros lines sentences Hshort Hpass.
  destruct (lookup_lt_is_Some_2 lines (length sentences) Hshort) as [line Hline].
  apply (sanity_check_first_raise lines sentences (length sentences) line);
    [done| |done].
  unfold compare_line. by rewrite lookup_ge_None_2.
Qed.

Lemma reference_longer_than_output_raises_IndexError_witness :
  sanity_check ["the cat sat"; "a dog"] ["sat the cat"] = Raise IndexError.
Proof.
  apply reference_longer_than_output_raises_IndexError.
  - simpl. lia.
  - intros j l Hj Hl. simpl in Hj. assert (j = 0) as -> by lia.
    injection Hl as <-. vm_compute. reflexivity.
Defined.

(** X10.  An iteration raises [ZeroDivisionError] exactly when neither the
    reference line nor the generated sentence holds a token; the sanity
    check then ends with that error when every earlier pair passes. *)
Theorem blank_pair_raises_ZeroDivisionError :
  ∀ (lines sentences : list string) (i : nat) (line s : string),
    lines !! i = Some line → sentences !! i = Some s →
    (∀ j l, j < i → lines !! j = Some l →
       compare_line j l sentences = Ok tt) →
    (compare_line i line sentences = Raise ZeroDivisionError ↔
     split line = [] ∧ split s = [])
    ∧ (split line = [] → split s = [] →
       sanity_check lines sentences = Raise ZeroDivisionError).
Proof.
  intros lines sentences i line s Hline Hs Hbefore.
  assert (compare_line i line sentences = Raise ZeroDivisionError ↔
          split line = [] ∧ split s = []) as Hiff.
  { unfold compare_line. rewrite Hs.
    pose proof (truediv_gt (size (toks (strip line) ∩ toks s))
                           (size (toks (strip line) ∪ toks s))) as Hdiv.
    assert (toks (strip line) = toks line) as Hstrip
      by (unfold toks; by rewrite split_strip).
    rewrite Hstrip in *. rewrite <- !toks_empty.
    destruct (truediv _ _) as [q|] eqn:Hq.
    - split; [by destruct (gt q (9 # 10))|]. intros [H1 H2].
      rewrite H1, H2 in Hq. vm_compute in Hq. done.
    - split; [|done]. intros _.
      apply size_empty_iff, leibniz_equiv in Hdiv.
      by apply empty_union_L in Hdiv. }
  split; [done|]. intros H1 H2.
  apply (sanity_check_first_raise lines sentences i line); [done| |done].
  by apply Hiff.
Qed.

Lemma blank_pair_raises_ZeroDivisionError_witness :
  sanity_check ["the cat sat"; "  "] ["sat the cat"; ""] = Raise ZeroDivisionError.
Proof.
  assert (∀ j l, j < 1 → ["the cat sat"; "  "] !! j = Some l →
            compare_line j l ["sat the cat"; ""] = Ok tt) as Hbefore.
  { intros j l Hj Hl. assert (j = 0) as -> by lia.
    injection Hl as <-. vm_compute. reflexivity. }
  apply (proj2 (blank_pair_raises_ZeroDivisionError
                  ["the cat sat"; "  "] ["sat the cat"; ""] 1 "  " ""
                  eq_refl eq_refl Hbefore)); reflexivity.
Defined.

(** X11.  The sanity check reads the generated sentences only up to the
    number of reference lines: two lists of sentences that agree on that
    many entries get the same outcome. *)
Theorem sanity_check_ignores_sentences_past_the_reference :
  ∀ (lines s1 s2 : list string),
    take (length lines) s1 = take (length lines) s2 →
    sanity_check lines s1 = sanity_check lines s2.
Proof.
  intros lines s1 s2 Htake. unfold sanity_check. apply compare_from_agree.
  intros i [_ Hi]. simpl in Hi.
  rewrite <- (lookup_take_lt s1 (length lines) i) by done.
  rewrite <- (lookup_take_lt s2 (length lines) i) by done.
  by rewrite Htake.
Qed.

Lemma sanity_check_ignores_sentences_past_the_reference_witness :
  sanity_check ["the cat sat"] ["sat the cat"; "never read"]
  = sanity_check ["the cat sat"] ["sat the cat"].
Proof.
  apply sanity_check_ignores_sentences_past_the_reference. reflexivity.
Defined.

(** ** More on [write_outputs] *)

Lemma has_char_join c a n :
  has_char c n = true → has_char c (PosixPath.join a n) = true.
Proof.
  intros Hn. unfold PosixPath.join.
  destruct (PosixPath.startswith_sep n); [done|].
  destruct (is_empty a || PosixPath.endswith_sep a).
  - by rewrite has_char_app, Hn, orb_true_r.
  - rewrite has_char_app. change (String PosixPath.sep n) with ("/" +:+ n).
    by rewrite has_char_app, Hn, !orb_true_r.
Qed.

(** Both output paths hold the [=] of [.steps=]; the path of the reference
    file does not. *)
Lemma output_path_has_equals repr_float args ext :
  has_char "=" (output_file_basepath repr_float args +:+ ext) = true.
Proof.
  rewrite has_char_app. unfold output_file_basepath.
  rewrite has_char_join; [done|]. unfold output_file_name.
  rewrite !has_char_app. replace (has_char "=" ".steps=") with true by done.
  by rewrite !orb_true_r.
Qed.

Lemma output_path_not_reference repr_float args ext :
  sanity_check_path ≠ output_file_basepath repr_float args +:+ ext.
Proof.
  intros Heq. pose proof (output_path_has_equals repr_float args ext) as Hout.
  by rewrite <- Heq in Hout.
Qed.

Section write_outputs_more.
Variable repr_float : Q → string.
Variables (args : Args) (sentences : list string) (w : world).

Local Abbreviation base := (output_file_basepath repr_float args).
Local Abbreviation out := (write_outputs repr_float args sentences w).

Lemma write_outputs_files_written :
  files out.1 = files (written repr_float args sentences w).
Proof.
  rewrite write_outputs_unfold. simpl. unfold open_r.
  by destruct (files (written repr_float args sentences w) !! sanity_check_path).
Qed.

Lemma write_outputs_other path :
  path ≠ base +:+ ".txt" → path ≠ base +:+ ".json" →
  files out.1 !! path = files w !! path.
Proof.
  intros Ht Hj. rewrite write_outputs_files_written. unfold written.
  rewrite write_loop_other by done. simpl.
  by rewrite !lookup_insert_ne.
Qed.

Lemma write_outputs_reference :
  files out.1 !! sanity_check_path = files w !! sanity_check_path.
Proof. apply write_outputs_other; apply output_path_not_reference. Qed.
End write_outputs_more.

(** X12.  [write_outputs] changes no file other than its text file and
    its JSON file. *)
Theorem write_outputs_touches_only_its_two_files :
  ∀ (repr_float : Q → string) (args : Args) (sentences : list string)
    (w : world) (path : string),
    path ≠ output_file_basepath repr_float args +:+ ".txt" →
    path ≠ output_file_basepath repr_float args +:+ ".json" →
    files (write_outputs repr_float args sentences w).1 !! path
    = files w !! path.
Proof. intros. by apply write_outputs_other. Qed.

Lemma write_outputs_touches_only_its_two_files_witness :
  files (write_outputs repr_nine_tenths sit_args ["the cat sit"] reference_world).1
    !! "notes.txt"
  = files reference_world !! "notes.txt".
Proof.
  apply write_outputs_touches_only_its_two_files.
  - vm_compute. discriminate.
  - vm_compute. discriminate.
Defined.

(** X13.  For every configuration the output paths differ from the path
    of the reference file, so [write_outputs] leaves the reference file as
    it found it and its outcome is that of checking the sentences against
    the reference as it was before the call, or [FileNotFoundError] when
    there was none. *)
Theorem write_outputs_checks_against_the_reference_as_found :
  ∀ (repr_float : Q → string) (args : Args) (sentences : list string)
    (w : world),
    files (write_outputs repr_float args sentences w).1 !! sanity_check_path
    = files w !! sanity_check_path
    ∧ (write_outputs repr_float args sentences w).2
      = match files w !! sanity_check_path with
        | Some content => sanity_check (readlines content) sentences
        | None => Raise (FileNotFoundError sanity_check_path)
        end.
Proof.
  intros repr_float args sentences w.
  pose proof (write_outputs_reference repr_float args sentences w) as Href.
  split; [done|]. by rewrite write_outputs_outcome, Href.
Qed.

(** X14.  Running [write_outputs] a second time with the same
    configuration and sentences leaves the files as the first run left
    them and ends the same way. *)
Theorem write_outputs_twice_is_once :
  ∀ (repr_float : Q → string) (args : Args) (sentences : list string)
    (w : world),
    files (write_outputs repr_float args sentences
             (write_outputs repr_float args sentences w).1).1
    = files (write_outputs repr_float args sentences w).1
    ∧ (write_outputs repr_float args sentences
         (write_outputs repr_float args sentences w).1).2
      = (write_outputs repr_float args sentences w).2.
Proof.
  intros repr_float args sentences w.
  pose (w1 := (write_outputs repr_float args sentences w).1).
  split.
  - apply map_eq. intros path.
    destruct (write_outputs_files repr_float args sentences w) as [Ht Hj].
    destruct (write_outputs_files repr_float args sentences w1) as [Ht1 Hj1].
    destruct (decide (path = output_file_basepath repr_float args +:+ ".txt"))
      as [->|Hnt]; [unfold w1 in Ht1; by rewrite Ht1, Ht|].
    destruct (decide (path = output_file_basepath repr_float args +:+ ".json"))
      as [->|Hnj]; [unfold w1 in Hj1; by rewrite Hj1, Hj|].
    by apply write_outputs_other.
  - rewrite !write_outputs_outcome.
    by rewrite !write_outputs_reference.
Qed.

(** X15.  Sentences that hold no line break and at least one token pass
    the sanity check against the text file that the writer produces for
    them. *)
Theorem own_output_passes_as_reference :
  ∀ (repr_float : Q → string) (args : Args) (sentences : list string)
    (w : world),
    Forall (λ s, no_linebreak s ∧ split s ≠ []) sentences →
    files w !! sanity_check_path = Some (text_of sentences) →
    (write_outputs repr_float args sentences w).2 = Ok tt.
Proof.
  intros repr_float args sentences w Hall Href.
  destruct (write_outputs_checks_against_the_reference_as_found
              repr_float args sentences w) as [_ ->].
  rewrite Href, readlines_text_of
    by (eapply Forall_impl; [done|]; by intros s [? _]).
  apply sanity_check_Ok. intros i line Hline.
  rewrite list_lookup_fmap in Hline.
  destruct (sentences !! i) as [s|] eqn:Hs; [|done]. injection Hline as <-.
  destruct (proj1 (Forall_forall _ _) Hall s) as [_ Hne];
    [apply list_elem_of_lookup; by exists i|].
  assert (compare_line i (s +:+ newline) sentences = Ok tt) as Hok.
  { apply (compare_line_threshold i (s +:+ newline) sentences s Hs).
    rewrite toks_line.
    rewrite union_idemp_L, intersection_idemp_L.
    assert (size (toks s) ≠ 0); [|lia].
    intros Hzero. apply Hne, toks_empty.
    by apply leibniz_equiv, size_empty_iff. }
  apply compare_line_Ok in Hok as (s' & q & Hs' & Hq & Hlt).
  exists s', q. split; [congruence|done].
Qed.

Lemma own_output_passes_as_reference_witness :
  (write_outputs repr_nine_tenths sit_args ["the cat sit"; "a dog"] echo_world).2
  = Ok tt.
Proof.
  apply own_output_passes_as_reference.
  - repeat constructor; vm_compute; discriminate.
  - reflexivity.
Defined.

(** ** The JSON lines are plain ASCII *)

Lemma all_printable_app (a b : string) :
  all_printable (a +:+ b) = all_printable a && all_printable b.
Proof.
  induction a as [|x a IH]; string_simpl; [done|]. rewrite IH.
  by rewrite !andb_assoc.
Qed.

Lemma escape_char_printable c : all_printable (Json.escape_char c) = true.
Proof. by destruct c as [[] [] [] [] [] [] [] []]. Qed.

Lemma escape_printable s : all_printable (Json.escape s) = true.
Proof.
  induction s as [|c s IH]; simpl; [done|].
  by rewrite all_printable_app, escape_char_printable, IH.
Qed.

(** X16.  Every line of the JSON file is made of the characters [' ']
    to ['~'] followed by a line feed, whatever the sentences hold. *)
Theorem json_lines_are_printable_ascii :
  ∀ (sentences : list string),
    Forall (λ line, ∃ text, line = text +:+ newline ∧ all_printable text = true)
           (readlines (json_of sentences)).
Proof.
  intros sentences. rewrite readlines_json_of. apply Forall_fmap, Forall_forall.
  intros s _. exists (Json.dumps_singleton s). split; [done|].
  unfold Json.dumps_singleton, Json.encode_basestring_ascii.
  rewrite !app_cons_s, !app_nil_l_s. simpl.
  by rewrite !all_printable_app, escape_printable.
Qed.

(** ** The base name of the model *)

Section base_name.
Import PosixPath.

Lemma prefix_app_length x n : prefix (String.length x) (x +:+ n) = x.
Proof. induction x as [|a x IH]; string_simpl; [by destruct n|]. by rewrite IH. Qed.

Lemma suffix_app_length x n : suffix (String.length x) (x +:+ n) = n.
Proof. induction x as [|a x IH]; string_simpl; [by destruct n|]. done. Qed.

Lemma all_sep_app a b : all_sep (a +:+ b) = all_sep a && all_sep b.
Proof.
  induction a as [|x a IH]; string_simpl; [done|]. rewrite IH.
  by rewrite andb_assoc.
Qed.

Lemma all_sep_open dir :
  dir ≠ "" → endswith_sep dir = false → all_sep dir = false.
Proof.
  induction dir as [|a dir IH]; [done|]. intros _ Hend.
  destruct dir as [|b dir].
  - simpl in *. by rewrite Hend.
  - change (endswith_sep (String b dir) = false) in Hend.
    change (all_sep (String a (String b dir)))
      with (Ascii.eqb a sep && all_sep (String b dir)).
    rewrite IH by done. apply andb_false_r.
Qed.

Lemma rstrip_sep_snoc dir :
  endswith_sep dir = false → rstrip_sep (dir +:+ String sep "") = dir.
Proof.
  induction dir as [|a dir IH]; [done|]. intros Hend. rewrite app_cons_s.
  destruct dir as [|b dir].
  - simpl in *. by rewrite Hend.
  - change (endswith_sep (String b dir) = false) in Hend.
    change (rstrip_sep (String a (String b dir +:+ String sep "")))
      with (let r := rstrip_sep (String b dir +:+ String sep "") in
            if Py.is_empty r && Ascii.eqb a sep then "" else String a r).
    by rewrite IH.
Qed.

Lemma split_dir_file dir f :
  dir ≠ "" → endswith_sep dir = false → has_char sep f = false →
  split (dir +:+ String sep f) = (dir, f).
Proof.
  intros Hne Hend Hf.
  replace (dir +:+ String sep f) with ((dir +:+ String sep "") +:+ f)
    by (by rewrite app_assoc_s).
  unfold split. rewrite (rfind_app_absent _ _ _ Hf).
  rewrite (rfind_endswith _ (endswith_sep_snoc dir)), Nat2Z.id.
  rewrite prefix_app_length, suffix_app_length.
  assert (Py.is_empty (dir +:+ String sep "") = false) as -> by (by destruct dir).
  rewrite all_sep_app, (all_sep_open dir Hne Hend). simpl.
  by rewrite rstrip_sep_snoc.
Qed.

Lemma split_no_sep p : has_char sep p = false → split p = ("", p).
Proof.
  intros Hp. unfold split. rewrite (rfind_absent _ _ Hp). simpl.
  by destruct p.
Qed.
End base_name.

(** X17.  For a model path [dir/f], where [dir] is not empty and does not
    end with a slash and [f] holds no slash, [os.path.split] gives
    [(dir, f)] and the base name of the outputs is the last component of
    [dir], a dot, and [f]. *)
Theorem model_base_name_is_folder_dot_file :
  ∀ (args : Args) (dir f : string),
    model_name_or_path args = dir +:+ String PosixPath.sep f →
    dir ≠ "" → PosixPath.endswith_sep dir = false →
    has_char PosixPath.sep f = false →
    PosixPath.split (model_name_or_path args) = (dir, f)
    ∧ model_base_name args = PosixPath.basename dir +:+ "." +:+ f
    ∧ (∀ parent sub,
         dir = parent +:+ String PosixPath.sep sub →
         has_char PosixPath.sep sub = false →
         model_base_name args = sub +:+ "." +:+ f).
Proof.
  intros args dir f Hpath Hne Hend Hf.
  pose proof (split_dir_file dir f Hne Hend Hf) as Hsplit.
  rewrite <- Hpath in Hsplit.
  assert (model_base_name args = PosixPath.basename dir +:+ "." +:+ f) as Hname.
  { unfold model_base_name. by rewrite Hsplit. }
  split; [done|]. split; [done|].
  intros parent sub -> Hsub. rewrite Hname. f_equal.
  replace (parent +:+ String PosixPath.sep sub)
    with ((parent +:+ String PosixPath.sep "") +:+ sub)
    by (by rewrite app_assoc_s).
  rewrite (basename_app _ _ Hsub), basename_dir; [done|].
  by rewrite endswith_sep_snoc, orb_true_r.
Qed.

Lemma model_base_name_is_folder_dot_file_witness :
  PosixPath.split (model_name_or_path sit_args) = ("ckpts/emb128", "model_5000.pt")
  ∧ model_base_name sit_args
    = PosixPath.basename "ckpts/emb128" +:+ "." +:+ "model_5000.pt"
  ∧ (∀ parent sub,
       "ckpts/emb128" = parent +:+ String PosixPath.sep sub →
       has_char PosixPath.sep sub = false →
       model_base_name sit_args = sub +:+ "." +:+ "model_5000.pt").
Proof.
  apply (model_base_name_is_folder_dot_file sit_args "ckpts/emb128" "model_5000.pt").
  - reflexivity.
  - discriminate.
  - reflexivity.
  - reflexivity.
Defined.

(** X18.  For a model path without slash the folder is empty and the
    base name of the outputs is a dot followed by the path. *)
Theorem bare_model_name_gives_dotted_base_name :
  ∀ (args : Args),
    has_char PosixPath.sep (model_name_or_path args) = false →
    PosixPath.split (model_name_or_path args) = ("", model_name_or_path args)
    ∧ model_base_name args = "." +:+ model_name_or_path args.
Proof.
  intros args Hp. pose proof (split_no_sep _ Hp) as Hsplit.
  split; [done|]. unfold model_base_name. by rewrite Hsplit.
Qed.

Lemma bare_model_name_gives_dotted_base_name_witness :
  PosixPath.split (model_name_or_path (with_model sit_args "ema.pt"))
  = ("", "ema.pt")
  ∧ model_base_name (with_model sit_args "ema.pt") = ".ema.pt".
Proof.
  apply (bare_model_name_gives_dotted_base_name (with_model sit_args "ema.pt")).
  reflexivity.
Defined.

(** ** Decoding, then writing *)

Lemma decode_sentences_all_mapped tokenizer indices :
  Forall (Forall (λ x, is_Some (tokenizer !! x))) indices →
  ∃ sentences, decode_sentences tokenizer indices = Ok sentences ∧
               length sentences = length indices.
Proof.
  intros Hall.
  destruct (for_each_total (decode_sentence tokenizer) indices) as [ss Hss].
  - eapply Forall_impl; [done|]. intros seq Hseq. by apply decode_sentence_mapped.
  - exists ss. split; [done|]. apply for_each_Ok in Hss.
    symmetry. by eapply Forall2_length.
Qed.

Lemma decode_sentences_unmapped tokenizer indices seq x :
  seq ∈ indices → x ∈ seq → tokenizer !! x = None →
  ∃ key, decode_sentences tokenizer indices = Raise (KeyError key).
Proof.
  intros Hseq Hx Hnone.
  destruct (decode_sentences tokenizer indices) as [sentences|e] eqn:Hrun.
  - exfalso. unfold decode_sentences in Hrun. apply for_each_Ok in Hrun.
    apply list_elem_of_lookup in Hseq as [i Hi].
    destruct (Forall2_lookup_l _ _ _ _ _ Hrun Hi) as (s & _ & Hs).
    apply decode_sentence_Ok in Hs as (words & Hall & _).
    apply list_elem_of_lookup in Hx as [j Hj].
    destruct (Forall2_lookup_l _ _ _ _ _ Hall Hj) as (w & _ & Hw). congruence.
  - unfold decode_sentences in Hrun.
    apply for_each_Raise in Hrun as (seq' & _ & Hseq').
    apply decode_sentence_Raise in Hseq' as (key & -> & _). by exists key.
Qed.

(** X23.  Decoding comes before any writing: when some index has no
    entry the run ends with [KeyError] and the files are as they were;
    when every index has an entry there is one sentence per sequence and
    both output files hold all of them. *)
Theorem decoding_failure_writes_nothing :
  ∀ (repr_float : Q → string) (tokenizer : gmap Z string) (args : Args)
    (indices : list (list Z)) (w : world),
    (∀ seq x, seq ∈ indices → x ∈ seq → tokenizer !! x = None →
       ∃ key, decode_and_write repr_float tokenizer args indices w
              = (w, Raise (KeyError key)))
    ∧ (Forall (Forall (λ x, is_Some (tokenizer !! x))) indices →
       ∃ sentences,
         decode_sentences tokenizer indices = Ok sentences
         ∧ length sentences = length indices
         ∧ files (decode_and_write repr_float tokenizer args indices w).1
             !! (output_file_basepath repr_float args +:+ ".txt")
           = Some (text_of sentences)
         ∧ files (decode_and_write repr_float tokenizer args indices w).1
             !! (output_file_basepath repr_float args +:+ ".json")
           = Some (json_of sentences)).
Proof.
  intros repr_float tokenizer args indices w. split.
  - intros seq x Hseq Hx Hnone.
    destruct (decode_sentences_unmapped tokenizer indices seq x Hseq Hx Hnone)
      as [key Hkey].
    exists key. unfold decode_and_write. by rewrite Hkey.
  - intros Hall.
    destruct (decode_sentences_all_mapped tokenizer indices Hall)
      as (sentences & Hdec & Hlen).
    exists sentences. split; [done|]. split; [done|].
    unfold decode_and_write. rewrite Hdec.
    apply write_outputs_files.
Qed.

Lemma decoding_failure_writes_nothing_witness :
  ∃ key, decode_and_write repr_nine_tenths small_vocab sit_args
           [[0; 1]; [1; 5; 0]]%Z reference_world
         = (reference_world, Raise (KeyError key)).
Proof.
  apply (proj1 (decoding_failure_writes_nothing repr_nine_tenths small_vocab
                  sit_args [[0; 1]; [1; 5; 0]]%Z reference_world)
           [1; 5; 0]%Z 5%Z).
  - apply list_elem_of_In. simpl. auto.
  - apply list_elem_of_In. simpl. auto.
  - reflexivity.
Defined.

(** ** The gather across workers *)

Section gather_facts.
Context {row : Type}.
Implicit Types (contributions : gmap nat (list row)) (sample batch : list row).
Implicit Types (ranks : list nat) (batches : list (list row)).

(** The slots are all filled, each with the batch of its rank and of the
    shape of [sample], or the gather fails. *)
Lemma fill_slots_Ok sample contributions ranks batches :
  fill_slots sample contributions ranks = Ok batches ↔
  Forall2 (λ rank batch, contributions !! rank = Some batch ∧
                         length batch = length sample) ranks batches.
Proof.
  revert batches. induction ranks as [|rank ranks IH]; intros batches; simpl.
  - split; [intros [= <-]; constructor | by inversion 1].
  - destruct (contributions !! rank) as [batch|] eqn:Hrank.
    + destruct (Nat.eqb_spec (length batch) (length sample)) as [Hlen|Hlen].
      * destruct (fill_slots sample contributions ranks) as [rest|e] eqn:Hrest;
          simpl.
        -- split.
           ++ intros [= <-]. constructor; [done|]. by apply IH.
           ++ inversion 1 as [|? b' ? rest' [Hb _] Hall]; subst.
              apply IH in Hall. congruence.
        -- split; [done|]. inversion 1 as [|? b' ? rest' _ Hall]; subst.
           apply IH in Hall. congruence.
      * split; [done|]. inversion 1 as [|? b' ? rest' [Hb Hl] _]; subst.
        congruence.
    + split; [done|]. inversion 1 as [|? b' ? rest' [Hb _] _]; subst.
      congruence.
Qed.

Lemma fill_slots_missing sample contributions ranks rank :
  rank ∈ ranks → contributions !! rank = None →
  fill_slots sample contributions ranks = Raise DistributedError.
Proof.
  intros Hin Hnone.
  destruct (fill_slots sample contributions ranks) as [batches|[]] eqn:Hrun;
    [|done].
  exfalso. apply fill_slots_Ok in Hrun.
  apply list_elem_of_lookup in Hin as [i Hi].
  destruct (Forall2_lookup_l _ _ _ _ _ Hrun Hi) as (b & _ & Hb & _). congruence.
Qed.

Lemma fill_slots_misshaped sample contributions ranks rank batch :
  rank ∈ ranks → contributions !! rank = Some batch →
  length batch ≠ length sample →
  fill_slots sample contributions ranks = Raise DistributedError.
Proof.
  intros Hin Hbatch Hlen.
  destruct (fill_slots sample contributions ranks) as [batches|[]] eqn:Hrun;
    [|done].
  exfalso. apply fill_slots_Ok in Hrun.
  apply list_elem_of_lookup in Hin as [i Hi].
  destruct (Forall2_lookup_l _ _ _ _ _ Hrun Hi) as (b & _ & Hb & Hl). congruence.
Qed.

Lemma elem_of_seq_0 (n rank : nat) : rank < n → rank ∈ seq 0 n.
Proof. intros H. apply elem_of_seq. lia. Qed.

Lemma gather_Ok world_size contributions me batches :
  gather world_size contributions me = Ok batches →
  length batches = world_size ∧
  ∀ rank, rank < world_size →
    ∃ batch, contributions !! rank = Some batch ∧ batches !! rank = Some batch.
Proof.
  unfold gather. destruct (contributions !! me) as [sample|]; [|done].
  intros Hrun%fill_slots_Ok. split.
  - rewrite <- (Forall2_length _ _ _ Hrun). apply length_seq.
  - intros rank Hrank.
    destruct (Forall2_lookup_l _ _ _ rank rank Hrun) as (b & Hb & Hc & _).
    + by rewrite lookup_seq_lt.
    + by exists b.
Qed.

Lemma gather_all_contributed world_size (b : nat) contributions me :
  me < world_size →
  (∀ rank, rank < world_size →
     ∃ batch, contributions !! rank = Some batch ∧ length batch = b) →
  ∃ batches,
    gather world_size contributions me = Ok batches ∧
    Forall2 (λ rank batch, contributions !! rank = Some batch ∧ length batch = b)
            (seq 0 world_size) batches.
Proof.
  intros Hme Hall. unfold gather.
  destruct (Hall me Hme) as (sample & -> & Hsample).
  assert (∃ batches,
            Forall2 (λ rank batch, contributions !! rank = Some batch ∧
                                   length batch = b)
                    (seq 0 world_size) batches) as [batches Hbatches].
  { assert (Forall (λ rank, rank < world_size) (seq 0 world_size)) as Hranks.
    { apply Forall_forall. intros rank Hin%elem_of_seq. lia. }
    induction Hranks as [|rank ranks Hrank _ [rest IH]]; [by eexists|].
    destruct (Hall rank Hrank) as (batch & Hb & Hl).
    exists (batch :: rest). by constructor. }
  exists batches. split; [|done]. apply fill_slots_Ok.
  eapply Forall2_impl; [done|]. intros rank batch [? ?]. split; [done|lia].
Qed.

Lemma contributions_of_lookup world_size (sample_fn : nat → nat → list row)
    round rank :
  rank < world_size →
  contributions_of world_size sample_fn round !! rank
  = Some (sample_fn round rank).
Proof.
  intros Hrank. unfold contributions_of.
  apply elem_of_list_to_map_1.
  - rewrite <- list_fmap_compose. simpl. rewrite list_fmap_id. apply NoDup_seq.
  - apply list_elem_of_fmap. exists rank. split; [done|]. by apply elem_of_seq_0.
Qed.
End gather_facts.

(** Claim C3, on the gather as the specification describes it.  When
    each of the [world_size] workers hands in a batch of [b] samples, the
    gather returns on every worker the same list of batches, whose
    concatenation has [world_size * b] samples in ascending rank order
    (sample [j] of the worker of rank [rank] at index [rank * b + j]).
    When a worker handed in nothing, or a batch of another shape than the
    caller's, the gather fails with [DistributedError]; a result always
    holds the batch of every rank, never fewer.  With every worker
    handing in the batch it drew, the result is the list that the
    sampling loop appends in a round. *)
Theorem gather_returns_every_batch_or_DistributedError :
  ∀ {row : Type} (world_size b : nat) (contributions : gmap nat (list row)),
    ((∀ rank, rank < world_size →
        ∃ batch, contributions !! rank = Some batch ∧ length batch = b) →
     ∃ batches,
       (∀ me, me < world_size →
          gather world_size contributions me = Ok batches)
       ∧ length (concat batches) = world_size * b
       ∧ (∀ rank j batch,
            rank < world_size → j < b → contributions !! rank = Some batch →
            concat batches !! (rank * b + j) = batch !! j))
    ∧ (∀ me rank,
         rank < world_size → contributions !! rank = None →
         gather world_size contributions me = Raise DistributedError)
    ∧ (∀ me rank sample batch,
         rank < world_size → contributions !! me = Some sample →
         contributions !! rank = Some batch → length batch ≠ length sample →
         gather world_size contributions me = Raise DistributedError)
    ∧ (∀ me batches,
         gather world_size contributions me = Ok batches →
         length batches = world_size
         ∧ ∀ rank, rank < world_size →
             ∃ batch, contributions !! rank = Some batch ∧
                      batches !! rank = Some batch)
    ∧ (∀ (sample_fn : nat → nat → list row) (round me : nat),
         me < world_size →
         (∀ rank, length (sample_fn round rank) = b) →
         gather world_size (contributions_of world_size sample_fn round) me
         = Ok (all_gather world_size sample_fn round)).
Proof.
  intros row world_size b contributions.
  split; [|split; [|split; [|split]]].
  - intros Hall.
    destruct world_size as [|n].
    { exists []. split; [intros me Hme; lia|]. split; [done|].
      intros rank j batch Hrank. lia. }
    destruct (gather_all_contributed (S n) b contributions 0 ltac:(lia) Hall)
      as (batches & Hrun & Hbatches).
    exists batches. split; [|split].
    + intros me Hme.
      destruct (gather_all_contributed (S n) b contributions me Hme Hall)
        as (batches' & Hrun' & Hbatches').
      rewrite Hrun'. f_equal.
      apply list_eq. intros i.
      destruct (decide (i < S n)) as [Hi|Hi].
      * destruct (Forall2_lookup_l _ _ _ i i Hbatches) as (b1 & Hb1 & Hc1 & _);
          [by rewrite lookup_seq_lt|].
        destruct (Forall2_lookup_l _ _ _ i i Hbatches') as (b2 & Hb2 & Hc2 & _);
          [by rewrite lookup_seq_lt|].
        congruence.
      * rewrite !lookup_ge_None_2; [done| |].
        -- rewrite <- (Forall2_length _ _ _ Hbatches), length_seq. lia.
        -- rewrite <- (Forall2_length _ _ _ Hbatches'), length_seq. lia.
    + assert (Forall (λ a, Z.of_nat (length a) = Z.of_nat b) batches) as Hshape.
      { apply Forall_forall. intros a Ha.
        apply list_elem_of_lookup in Ha as [i Hi].
        destruct (Forall2_lookup_r _ _ _ _ _ Hbatches Hi) as (r & _ & _ & Hl).
        by rewrite Hl. }
      pose proof (length_concat_shaped (Z.of_nat b) batches Hshape) as Hcount.
      rewrite <- (Forall2_length _ _ _ Hbatches), length_seq in Hcount. lia.
    + intros rank j batch Hrank Hj Hbatch.
      apply lookup_concat_shaped; [| |done].
      * apply Forall_forall. intros a Ha.
        apply list_elem_of_lookup in Ha as [i Hi].
        by destruct (Forall2_lookup_r _ _ _ _ _ Hbatches Hi) as (r & _ & _ & Hl).
      * destruct (Forall2_lookup_l _ _ _ rank rank Hbatches)
          as (b1 & Hb1 & Hc1 & _); [by rewrite lookup_seq_lt|]. congruence.
  - intros me rank Hrank Hnone. unfold gather.
    destruct (contributions !! me) as [sample|]; [|done].
    by apply (fill_slots_missing _ _ _ rank); [apply elem_of_seq_0|].
  - intros me rank sample batch Hrank Hme Hbatch Hlen. unfold gather.
    rewrite Hme.
    by apply (fill_slots_misshaped _ _ _ rank batch); [apply elem_of_seq_0| |].
  - intros me batches. apply gather_Ok.
  - intros sample_fn round me Hme Hshape. unfold gather.
    rewrite contributions_of_lookup by done. apply fill_slots_Ok.
    unfold all_gather. apply Forall2_fmap_r, Forall_Forall2_diag, Forall_forall.
    intros rank Hin%elem_of_seq. split.
    + apply contributions_of_lookup. lia.
    + by rewrite !Hshape.
Qed.

(** C3 on three workers with batches of two, and on three workers of
    which the one of rank 1 is missing. *)
Lemma gather_returns_every_batch_or_DistributedError_witness :
  (∃ batches : list (list nat),
     (∀ me, me < 3 → gather 3 full_contributions me = Ok batches)
     ∧ length (concat batches) = 3 * 2
     ∧ (∀ rank j batch,
          rank < 3 → j < 2 → full_contributions !! rank = Some batch →
          concat batches !! (rank * 2 + j) = batch !! j))
  ∧ gather 3 gapped_contributions 0 = Raise DistributedError.
Proof.
  split.
  - apply (proj1 (gather_returns_every_batch_or_DistributedError
                    3 2 full_contributions)).
    intros rank Hrank.
    destruct rank as [|[|[|rank]]]; [by eexists..|lia].
  - apply (proj1 (proj2 (gather_returns_every_batch_or_DistributedError
                           3 2 gapped_contributions)) 0 1).
    + lia.
    + reflexivity.
Defined.

(** ** Loading the configuration *)

Import configuration.

Section configuration_facts.
Variable json_loads : string → option pyval.
Implicit Types (args training : gmap string pyval) (w : world).

Lemma read_training_args_found path w content :
  files w !! path = Some content →
  read_training_args json_loads path w
  = ({| files := files w; opened := opened w ++ [OpenRead path] |},
     match json_loads content with
     | Some v => Ok v
     | None => Raise JSONDecodeError
     end).
Proof.
  intros Hfile. unfold read_training_args, open_rb. rewrite Hfile.
  by destruct (json_loads content).
Qed.

Lemma read_training_args_missing path w :
  files w !! path = None →
  read_training_args json_loads path w
  = ({| files := files w; opened := opened w ++ [OpenRead path] |},
     Raise (FileNotFoundError path)).
Proof. intros Hfile. unfold read_training_args, open_rb. by rewrite Hfile. Qed.
End configuration_facts.



(** X19.  When the training arguments load as a JSON object, the
    namespace after line 47 has [batch_size] and [diffusion_steps] from
    the command line and [sigma_small] set to [True]; every other key
    takes the saved training value when there is one, and otherwise the
    command-line value ([checkpoint_path]: the folder of the model).  No
    file is changed. *)
Theorem command_line_keeps_batch_size_and_steps_only :
  ∀ (json_loads : string → option pyval) (args training : gmap string pyval)
    (w : world) (p content : string) (bs ds : pyval),
    args !! "model_name_or_path" = Some (PStr p) →
    args !! "batch_size" = Some bs →
    args !! "diffusion_steps" = Some ds →
    files w !! config_path_of p = Some content →
    json_loads content = Some (PDict training) →
    ∃ (w' : world) (ns : gmap string pyval),
      load_configuration json_loads args w = (w', Ok ns)
      ∧ files w' = files w
      ∧ ns !! "batch_size" = Some bs
      ∧ ns !! "diffusion_steps" = Some ds
      ∧ ns !! "sigma_small" = Some (PBool true)
      ∧ ∀ key, key ≠ "batch_size" → key ≠ "diffusion_steps" →
               key ≠ "sigma_small" →
               ns !! key
               = match training !! key with
                 | Some v => Some v
                 | None =>
                     if decide (key = "checkpoint_path")
                     then Some (PStr (PosixPath.split p).1)
                     else args !! key
                 end.
Proof.
  intros json_loads args training w p content bs ds Hp Hbs Hds Hfile Hjson.
  unfold load_configuration, getattr. rewrite Hp.
  fold (config_path_of p).
  rewrite (read_training_args_found json_loads _ _ _ Hfile), Hjson.
  rewrite !lookup_insert_ne by done. rewrite Hbs, Hds. simpl.
  eexists _, _. split; [reflexivity|]. split; [done|].
  split; [|split; [|split]].
  - rewrite lookup_insert_ne by done. apply lookup_union_Some_l.
    rewrite lookup_insert_ne by done. apply lookup_insert_eq.
  - rewrite lookup_insert_ne by done. apply lookup_union_Some_l.
    apply lookup_insert_eq.
  - apply lookup_insert_eq.
  - intros key H1 H2 H3. rewrite lookup_insert_ne by done.
    destruct (training !! key) as [v|] eqn:Hkey.
    + apply lookup_union_Some_l. by rewrite !lookup_insert_ne.
    + rewrite lookup_union_r by (by rewrite !lookup_insert_ne).
      destruct (decide (key = "checkpoint_path")) as [->|Hne].
      * apply lookup_insert_eq.
      * by rewrite lookup_insert_ne.
Qed.

Lemma command_line_keeps_batch_size_and_steps_only_witness :
  ∃ (w' : world) (ns : gmap string pyval),
    load_configuration example_json_loads cli_args config_world = (w', Ok ns)
    ∧ files w' = files config_world
    ∧ ns !! "batch_size" = Some (PInt 50)
    ∧ ns !! "diffusion_steps" = Some (PInt 200)
    ∧ ns !! "sigma_small" = Some (PBool true)
    ∧ ∀ key, key ≠ "batch_size" → key ≠ "diffusion_steps" →
             key ≠ "sigma_small" →
             ns !! key
             = match saved_training_args !! key with
               | Some v => Some v
               | None =>
                   if decide (key = "checkpoint_path")
                   then Some (PStr (PosixPath.split "ckpts/emb128/model_5000.pt").1)
                   else cli_args !! key
               end.
Proof.
  apply (command_line_keeps_batch_size_and_steps_only
           example_json_loads cli_args saved_training_args config_world
           "ckpts/emb128/model_5000.pt" "{saved}" (PInt 50) (PInt 200));
    reflexivity.
Defined.

(** X20.  When there is no file of training arguments beside the model,
    loading the configuration raises [FileNotFoundError] for that path,
    after opening only that path and without changing a file. *)
Theorem missing_training_args_raise_FileNotFoundError :
  ∀ (json_loads : string → option pyval) (args : gmap string pyval)
    (w : world) (p : string),
    args !! "model_name_or_path" = Some (PStr p) →
    files w !! config_path_of p = None →
    (load_configuration json_loads args w).2
    = Raise (FileNotFoundError (config_path_of p))
    ∧ files (load_configuration json_loads args w).1 = files w
    ∧ opened (load_configuration json_loads args w).1
      = (opened w ++ [OpenRead (config_path_of p)])%list.
Proof.
  intros json_loads args w p Hp Hfile.
  unfold load_configuration, getattr. rewrite Hp. fold (config_path_of p).
  by rewrite (read_training_args_missing json_loads _ _ Hfile).
Qed.

Lemma missing_training_args_raise_FileNotFoundError_witness :
  (load_configuration example_json_loads cli_args empty_world).2
  = Raise (FileNotFoundError "ckpts/emb128/training_args.json")
  ∧ files (load_configuration example_json_loads cli_args empty_world).1
    = files empty_world
  ∧ opened (load_configuration example_json_loads cli_args empty_world).1
    = (opened empty_world ++ [OpenRead "ckpts/emb128/training_args.json"])%list.
Proof.
  apply (missing_training_args_raise_FileNotFoundError
           example_json_loads cli_args empty_world "ckpts/emb128/model_5000.pt");
    reflexivity.
Defined.

(** X21.  When the file of training arguments parses to a JSON value
    that is not an object, the assignment of line 43 raises
    [TypeError]. *)
Theorem training_args_that_are_no_object_raise_TypeError :
  ∀ (json_loads : string → option pyval) (args : gmap string pyval)
    (w : world) (p content : string) (bs v : pyval),
    args !! "model_name_or_path" = Some (PStr p) →
    args !! "batch_size" = Some bs →
    files w !! config_path_of p = Some content →
    json_loads content = Some v →
    (∀ d, v ≠ PDict d) →
    (load_configuration json_loads args w).2 = Raise TypeError.
Proof.
  intros json_loads args w p content bs v Hp Hbs Hfile Hjson Hv.
  unfold load_configuration, getattr. rewrite Hp. fold (config_path_of p).
  rewrite (read_training_args_found json_loads _ _ _ Hfile), Hjson.
  rewrite lookup_insert_ne by done. rewrite Hbs. simpl.
  destruct v; try done. by destruct (Hv d).
Qed.

Lemma training_args_that_are_no_object_raise_TypeError_witness :
  (load_configuration list_json_loads cli_args list_config_world).2
  = Raise TypeError.
Proof.
  apply (training_args_that_are_no_object_raise_TypeError
           list_json_loads cli_args list_config_world
           "ckpts/emb128/model_5000.pt" "[]" (PInt 50) (PList [])).
  - reflexivity.
  - reflexivity.
  - reflexivity.
  - reflexivity.
  - intros d. discriminate.
Defined.

(** X22.  The training arguments are looked for in the folder of the
    model file: [dir/training_args.json] for a model path [dir/f], and
    [training_args.json] in the working directory for a model path
    without slash. *)
Theorem training_args_are_sought_beside_the_model :
  ∀ (p : string),
    (∀ dir f,
       p = dir +:+ String PosixPath.sep f →
       dir ≠ "" → PosixPath.endswith_sep dir = false →
       has_char PosixPath.sep f = false →
       config_path_of p = dir +:+ "/training_args.json")
    ∧ (has_char PosixPath.sep p = false →
       config_path_of p = "training_args.json").
Proof.
  intros p. split.
  - intros dir f -> Hne Hend Hf. unfold config_path_of.
    rewrite (split_dir_file dir f Hne Hend Hf). simpl.
    unfold PosixPath.join. simpl. rewrite Hend.
    by destruct dir.
  - intros Hp. unfold config_path_of. by rewrite (split_no_sep p Hp).
Qed.

Lemma training_args_are_sought_beside_the_model_witness :
  config_path_of "ckpts/emb128/model_5000.pt"
  = "ckpts/emb128" +:+ "/training_args.json"
  ∧ config_path_of "ema.pt" = "training_args.json".
Proof.
  split.
  - apply (proj1 (training_args_are_sought_beside_the_model
                    "ckpts/emb128/model_5000.pt") "ckpts/emb128" "model_5000.pt").
    + reflexivity.
    + discriminate.
    + reflexivity.
    + reflexivity.
  - apply (proj2 (training_args_are_sought_beside_the_model "ema.pt")).
    reflexivity.
Defined.

